(** * Doc-Markings: the multi-document session of [src/App.tsx] and the
      find/replace matcher of [src/components/FindReplaceDialog.tsx]

    The React component state ([useState] cells) is modelled by records and
    every handler by a function from the state before the event to the state
    after it.  The collaborators the handlers call are inputs of the model:
    the clock ([Date.now()]), the confirmation dialog ([confirm]) and the
    rich-text editor ([getHTML] / [setContent]). *)

From Stdlib Require Import ZArith List String Ascii Bool Lia.
From Stdlib Require Import DecimalString DecimalPos DecimalZ.
Import ListNotations.

Local Open Scope list_scope.
Local Open Scope string_scope.

(** ** Strings as the handlers use them *)

Module Str.

(** [s.split(sep).pop()]: the part of [s] after the last [sep]
    (all of [s] when [sep] does not occur).  [acc] is the segment read so
    far. *)
Fixpoint lastSegmentFrom (sep : ascii) (acc : string) (s : string) : string :=
  match s with
  | EmptyString => acc
  | String c rest =>
      if Ascii.eqb c sep
      then lastSegmentFrom sep EmptyString rest
      else lastSegmentFrom sep (acc ++ String c EmptyString) rest
  end.

Definition lastSegment (sep : ascii) (s : string) : string :=
  lastSegmentFrom sep EmptyString s.

(** A template literal prints an integral number in decimal. *)
Definition ofNumber (n : Z) : string :=
  NilZero.string_of_int (Z.to_int n).

(** [s.substring(0, n)] and [s.substring(n)]. *)
Fixpoint take (n : nat) (s : string) : string :=
  match n, s with
  | S k, String c rest => String c (take k rest)
  | _, _ => EmptyString
  end.

Fixpoint drop (n : nat) (s : string) : string :=
  match n, s with
  | S k, String _ rest => drop k rest
  | _, _ => s
  end.

Fixpoint mem (c : ascii) (cs : list ascii) : bool :=
  match cs with
  | [] => false
  | d :: rest => Ascii.eqb c d || mem c rest
  end.

End Str.

(** ** The tab registry ([App.tsx]) *)

Module App.

(** [interface Tab], lines 22-28. *)
Record Tab : Type := mkTab {
  id : string;
  title : string;
  filePath : option string;
  content : string;
  isModified : bool
}.

(** The two [useState] cells of lines 32-43. *)
Record State : Type := mkState {
  tabs : list Tab;
  activeTabId : string
}.

(** The object literal of lines 112-118 and 133-139. *)
Definition untitled (newId : string) : Tab :=
  {| id := newId; title := "Untitled"; filePath := None;
     content := ""; isModified := false |}.

(** [`tab-${Date.now()}`] *)
Definition tabIdAt (now : Z) : string := "tab-" ++ Str.ofNumber now.

Definition initialState : State :=
  {| tabs := [untitled "tab-1"]; activeTabId := "tab-1" |}.

Definition findTab (tabId : string) (ts : list Tab) : option Tab :=
  find (fun tab => String.eqb (id tab) tabId) ts.

(** Line 52: [tabs.find(tab => tab.id === activeTabId) || tabs[0]];
    [None] is [undefined] (only for an empty [tabs]). *)
Definition activeTab (st : State) : option Tab :=
  match findTab (activeTabId st) (tabs st) with
  | Some tab => Some tab
  | None => hd_error (tabs st)
  end.

(** Lines 94-100. *)
Definition updateTabContent (tabId newContent : string) (modified : bool)
    (st : State) : State :=
  {| tabs := map (fun tab =>
                    if String.eqb (id tab) tabId
                    then {| id := id tab; title := title tab;
                            filePath := filePath tab;
                            content := newContent; isModified := modified |}
                    else tab) (tabs st);
     activeTabId := activeTabId st |}.

(** Lines 102-108. *)
Definition updateTabFile (tabId : string) (path : option string)
    (newTitle : string) (modified : bool) (st : State) : State :=
  {| tabs := map (fun tab =>
                    if String.eqb (id tab) tabId
                    then {| id := id tab; title := newTitle;
                            filePath := path;
                            content := content tab; isModified := modified |}
                    else tab) (tabs st);
     activeTabId := activeTabId st |}.

(** Lines 110-122; the result is the new state and the returned id. *)
Definition createNewTab (now : Z) (st : State) : State * string :=
  let newTabId := tabIdAt now in
  ({| tabs := (tabs st ++ [untitled newTabId])%list;
      activeTabId := newTabId |},
   newTabId).

(** Lines 125-141.  [setActiveTabId] is called only under the test of line
    129; the replacement tab of lines 133-139 is returned without it. *)
Definition closeTab (now : Z) (tabId : string) (st : State) : State :=
  let filtered := filter (fun tab => negb (String.eqb (id tab) tabId)) (tabs st) in
  let active' :=
    if String.eqb tabId (activeTabId st) && (0 <? List.length filtered)%nat
    then match nth_error filtered (List.length filtered - 1) with
         | Some tab => id tab
         | None => activeTabId st
         end
    else activeTabId st in
  {| tabs := if (List.length filtered =? 0)%nat
             then [untitled (tabIdAt now)]
             else filtered;
     activeTabId := active' |}.

(** [onTabSelect={setActiveTabId}], line 550. *)
Definition selectTab (tabId : string) (st : State) : State :=
  {| tabs := tabs st; activeTabId := tabId |}.

(** The tabs [closeTab tabId] keeps: [filtered] of line 127. *)
Definition remaining (tabId : string) (st : State) : list Tab :=
  filter (fun tab => negb (String.eqb (id tab) tabId)) (tabs st).

(** Whether some tab has the id. *)
Definition registered (tabId : string) (ts : list Tab) : bool :=
  existsb (fun tab => String.eqb (id tab) tabId) ts.

(** The invariant of the registry: there is a tab, and [activeTabId] is the
    id of one of the tabs. *)
Definition invariant (st : State) : Prop :=
  tabs st <> [] /\ registered (activeTabId st) (tabs st) = true.

(** [tabs.findIndex(tab => tab.id === tabId)]: [-1] when no tab matches. *)
Fixpoint findIndexFrom (i : Z) (tabId : string) (ts : list Tab) : Z :=
  match ts with
  | [] => (-1)%Z
  | tab :: rest =>
      if String.eqb (id tab) tabId then i
      else findIndexFrom (i + 1)%Z tabId rest
  end.

Definition findIndex (tabId : string) (ts : list Tab) : Z :=
  findIndexFrom 0%Z tabId ts.

(** [tabs[i]]: [undefined] outside [0 .. length-1]. *)
Definition tabAt (i : Z) (ts : list Tab) : option Tab :=
  if (i <? 0)%Z then None else nth_error ts (Z.to_nat i).

(** Ctrl+Tab, lines 452-458.  [None] is the [TypeError] of reading [.id]
    of [undefined]; [Z.rem] is the remainder of [%] (with an empty [tabs]
    the index is not a number in the source and any index misses here). *)
Definition cycleNext (st : State) : option State :=
  let currentIndex := findIndex (activeTabId st) (tabs st) in
  let nextIndex := Z.rem (currentIndex + 1) (Z.of_nat (List.length (tabs st))) in
  match tabAt nextIndex (tabs st) with
  | Some tab => Some (selectTab (id tab) st)
  | None => None
  end.

(** Ctrl+Shift+Tab, lines 478-484. *)
Definition cyclePrevious (st : State) : option State :=
  let currentIndex := findIndex (activeTabId st) (tabs st) in
  let prevIndex :=
    if (currentIndex =? 0)%Z
    then (Z.of_nat (List.length (tabs st)) - 1)%Z
    else (currentIndex - 1)%Z in
  match tabAt prevIndex (tabs st) with
  | Some tab => Some (selectTab (id tab) st)
  | None => None
  end.

(** The serialization of the empty document, the literal of line 181. *)
Definition emptyDocument : string := "<p></p>".

(** The flag as the specification words it: off when the new content is
    the empty document and is the content the tab was bound to, on
    otherwise. *)
Definition specIsModified (newContent bound : string) : bool :=
  negb (String.eqb newContent emptyDocument && String.eqb newContent bound).

(** The editor's [onUpdate], lines 179-183, with [newContent] the value of
    [editor.getHTML()]; the callback reads [activeTab] and [activeTabId] of
    the state the event arrives in.  [None] is the [TypeError] of
    [activeTab.content] when [activeTab] is [undefined]. *)
Definition onUpdate (newContent : string) (st : State) : option State :=
  match activeTab st with
  | None => None
  | Some tab =>
      let modified :=
        negb (String.eqb newContent emptyDocument)
        && negb (String.eqb newContent (content tab)) in
      Some (updateTabContent (activeTabId st) newContent modified st)
  end.

(** *** The unsaved-change guard and the handlers that consult it

    [confirm] is the dialog of [@tauri-apps/api/dialog]: it answers a
    message with the user's choice, or fails ([None], a rejected promise).
    A guarded handler returns its result together with the messages it
    showed, in order. *)
Section Guard.

Variable confirm : string -> option bool.

(** The tab line 193 looks at: [tabId ? tabs.find(...) : activeTab]; an
    absent or empty [tabId] is falsy. *)
Definition guardedTab (tabId : option string) (st : State) : option Tab :=
  match tabId with
  | Some i => if String.eqb i "" then activeTab st else findTab i (tabs st)
  | None => activeTab st
  end.

(** Line 199: [tab.filePath ? tab.filePath.split('\\').pop() : tab.title]. *)
Definition displayName (tab : Tab) : string :=
  match filePath tab with
  | Some path =>
      if String.eqb path "" then title tab
      else Str.lastSegment "\" path
  | None => title tab
  end.

(** Lines 192-211. *)
Definition checkUnsavedChanges (tabId : option string) (st : State)
    : bool * list string :=
  match guardedTab tabId st with
  | None => (true, [])
  | Some tab =>
      if negb (isModified tab) then (true, [])
      else
        let message := "Discard unsaved changes to " ++ displayName tab ++ "?" in
        match confirm message with
        | Some shouldDiscard => (shouldDiscard, [message])
        | None => (false, [message])
        end
  end.

(** Lines 213-223. *)
Definition handleCloseTab (now : Z) (tabId : string) (st : State)
    : State * list string :=
  match findTab tabId (tabs st) with
  | None => (st, [])
  | Some tab =>
      if isModified tab then
        let (proceed, shown) := checkUnsavedChanges (Some tabId) st in
        if proceed then (closeTab now tabId st, shown) else (st, shown)
      else (closeTab now tabId st, [])
  end.

(** What a close request ends with: whether the handler vetoed it
    ([event.preventDefault()]) and whether it called [appWindow.close()]. *)
Record CloseRequest : Type := mkCloseRequest {
  prevented : bool;
  closeCalled : bool
}.

(** Lines 496-506. *)
Definition handleWindowClose (st : State) : CloseRequest * list string :=
  if existsb isModified (tabs st) then
    let (proceed, shown) := checkUnsavedChanges None st in
    ({| prevented := true; closeCalled := proceed |}, shown)
  else ({| prevented := false; closeCalled := false |}, []).

End Guard.

(** The window host closes the window when the request was not vetoed, or
    when [appWindow.close()] was called. *)
Definition windowCloses (r : CloseRequest) : bool :=
  negb (prevented r) || closeCalled r.

End App.

(** ** The regular expressions the dialog builds

    [FindReplaceDialog.tsx] uses the runtime's [RegExp], [String.match] and
    [String.replace].  The fragment of ECMAScript modelled here is the one
    those calls reach: a pattern is a sequence of atoms that each consume
    one character, the flags are [g] and [i], and there are no capture
    groups.  Characters are Rocq's [ascii]; the [i] flag compares the
    upper-case forms of the letters [a]-[z], which is the canonical form
    of ECMAScript on ASCII text (accented letters are outside the
    model). *)

Module Regex.

Inductive atom : Type :=
| Lit (c : ascii)            (* a pattern character, or an escaped one *)
| AnyChar                    (* [.] *)
| OneOf (cs : list ascii).   (* a character class [[...]] *)

Record RegExp : Type := mkRegExp {
  source : list atom;
  global : bool;
  ignoreCase : bool
}.

(** The syntax characters of a pattern: [^ $ \ . * + ? ( ) [ ] { } |]. *)
Definition syntaxCharacters : list ascii :=
  list_ascii_of_string "^$\.*+?()[]{}|".

Definition isSyntaxCharacter (c : ascii) : bool :=
  Str.mem c syntaxCharacters.

Definition isLineTerminator (c : ascii) : bool :=
  Ascii.eqb c "010" || Ascii.eqb c "013".

Definition toUpper (c : ascii) : ascii :=
  let n := nat_of_ascii c in
  if (97 <=? n)%nat && (n <=? 122)%nat then ascii_of_nat (n - 32) else c.

Definition canonicalize (ic : bool) (c : ascii) : ascii :=
  if ic then toUpper c else c.

Definition charEq (ic : bool) (a b : ascii) : bool :=
  Ascii.eqb (canonicalize ic a) (canonicalize ic b).

Definition atomMatches (ic : bool) (a : atom) (c : ascii) : bool :=
  match a with
  | Lit x => charEq ic x c
  | AnyChar => negb (isLineTerminator c)
  | OneOf cs => existsb (fun x => charEq ic x c) cs
  end.

(** Whether the atoms match at the start of [s]. *)
Fixpoint matchAtoms (ic : bool) (atoms : list atom) (s : string) : bool :=
  match atoms, s with
  | [], _ => true
  | a :: atoms', String c s' => atomMatches ic a c && matchAtoms ic atoms' s'
  | _ :: _, EmptyString => false
  end.

(** Pattern text to atoms.  A backslash before a syntax character is an
    identity escape; [.] is [AnyChar]; any other syntax character, any
    other escape and a trailing backslash are outside the fragment
    ([None]). *)
Fixpoint parsePattern (p : string) : option (list atom) :=
  match p with
  | EmptyString => Some []
  | String c rest =>
      if Ascii.eqb c "\" then
        match rest with
        | EmptyString => None
        | String d rest' =>
            if isSyntaxCharacter d
            then option_map (cons (Lit d)) (parsePattern rest')
            else None
        end
      else if Ascii.eqb c "." then option_map (cons AnyChar) (parsePattern rest)
      else if isSyntaxCharacter c then None
      else option_map (cons (Lit c)) (parsePattern rest)
  end.

(** The flag strings the dialog passes: [''], ['g'], ['i'], ['gi']. *)
Definition parseFlags (flags : string) : option (bool * bool) :=
  if String.eqb flags "" then Some (false, false)
  else if String.eqb flags "g" then Some (true, false)
  else if String.eqb flags "i" then Some (false, true)
  else if String.eqb flags "gi" then Some (true, true)
  else if String.eqb flags "ig" then Some (true, true)
  else None.

(** [new RegExp(pattern, flags)]; [None] is a [SyntaxError] or a pattern
    outside the fragment. *)
Definition newRegExp (pattern flags : string) : option RegExp :=
  match parsePattern pattern, parseFlags flags with
  | Some atoms, Some (g, i) =>
      Some {| source := atoms; global := g; ignoreCase := i |}
  | _, _ => None
  end.

(** The positions of the successive matches of a global search over [s],
    which starts at position [pos]; [skip] characters are still inside the
    previous match.  After an empty match the search moves on by one. *)
Fixpoint scanFrom (ic : bool) (atoms : list atom) (pos skip : nat)
    (s : string) : list nat :=
  match s with
  | EmptyString =>
      if (skip =? 0)%nat && matchAtoms ic atoms EmptyString then [pos] else []
  | String c s' =>
      match skip with
      | S k => scanFrom ic atoms (S pos) k s'
      | O =>
          if matchAtoms ic atoms s
          then pos :: scanFrom ic atoms (S pos) (Nat.pred (List.length atoms)) s'
          else scanFrom ic atoms (S pos) 0 s'
      end
  end.

(** [s.match(re)]: [null] ([None]) without a match; with the [g] flag the
    matched texts of all matches, without it the first one. *)
Definition stringMatch (re : RegExp) (s : string) : option (list string) :=
  let n := List.length (source re) in
  let found := scanFrom (ignoreCase re) (source re) 0 0 s in
  let found := if global re then found else firstn 1 found in
  match found with
  | [] => None
  | _ :: _ => Some (map (fun p => substring p n s) found)
  end.

(** The replacement text of one match (GetSubstitution without captures):
    [$$] is a dollar sign, [$&] the matched text, [$`] the text before the
    match, [$'] the text after it; any other dollar sign stands for
    itself. *)
Fixpoint getSubstitution (matched before after : string) (repl : string)
    : string :=
  match repl with
  | EmptyString => EmptyString
  | String c rest =>
      if Ascii.eqb c "$" then
        match rest with
        | EmptyString => String c EmptyString
        | String d rest' =>
            if Ascii.eqb d "$" then String "$" (getSubstitution matched before after rest')
            else if Ascii.eqb d "&" then matched ++ getSubstitution matched before after rest'
            else if Ascii.eqb d "`" then before ++ getSubstitution matched before after rest'
            else if Ascii.eqb d "'" then after ++ getSubstitution matched before after rest'
            else String c (getSubstitution matched before after rest)
        end
      else String c (getSubstitution matched before after rest)
  end.

(** One pass over [s] that copies the text between matches and puts the
    substitution in place of each match.  [before] is the text already
    read, [skip] counts the characters left of the current match and
    [live] tells whether matches are still looked for (a search without
    the [g] flag stops after its first match). *)
Fixpoint replaceScan (ic : bool) (atoms : list atom) (g : bool)
    (repl before : string) (skip : nat) (live : bool) (s : string) : string :=
  match s with
  | EmptyString =>
      if live && (skip =? 0)%nat && matchAtoms ic atoms EmptyString
      then getSubstitution EmptyString before EmptyString repl
      else EmptyString
  | String c s' =>
      let before' := before ++ String c EmptyString in
      match skip with
      | S k => replaceScan ic atoms g repl before' k live s'
      | O =>
          if live && matchAtoms ic atoms s then
            let n := List.length atoms in
            getSubstitution (Str.take n s) before (Str.drop n s) repl
            ++ match n with
               | O => String c (replaceScan ic atoms g repl before' 0 g s')
               | S k => replaceScan ic atoms g repl before' k g s'
               end
          else String c (replaceScan ic atoms g repl before' 0 live s')
      end
  end.

(** [s.replace(re, repl)] with a string [repl]. *)
Definition stringReplace (re : RegExp) (s repl : string) : string :=
  replaceScan (ignoreCase re) (source re) (global re) repl EmptyString 0 true s.

End Regex.

(** ** The find/replace dialog ([FindReplaceDialog.tsx]) *)

Module FindReplace.

Import Regex.

(** The [useState] cells of lines 21-25, and the document the editor
    holds as [editor.getHTML()] returns it. *)
Record Session : Type := mkSession {
  findText : string;
  replaceText : string;
  caseSensitive : bool;
  currentMatch : nat;
  totalMatches : nat;
  html : string
}.

(** The dialog as it is mounted over a document. *)
Definition openDialog (doc : string) : Session :=
  {| findText := ""; replaceText := ""; caseSensitive := false;
     currentMatch := 0; totalMatches := 0; html := doc |}.

Definition setTotalMatches (n : nat) (s : Session) : Session :=
  {| findText := findText s; replaceText := replaceText s;
     caseSensitive := caseSensitive s; currentMatch := currentMatch s;
     totalMatches := n; html := html s |}.

Definition setCurrentMatch (n : nat) (s : Session) : Session :=
  {| findText := findText s; replaceText := replaceText s;
     caseSensitive := caseSensitive s; currentMatch := n;
     totalMatches := totalMatches s; html := html s |}.

Definition setFindText (q : string) (s : Session) : Session :=
  {| findText := q; replaceText := replaceText s;
     caseSensitive := caseSensitive s; currentMatch := currentMatch s;
     totalMatches := totalMatches s; html := html s |}.

Definition setReplaceText (r : string) (s : Session) : Session :=
  {| findText := findText s; replaceText := r;
     caseSensitive := caseSensitive s; currentMatch := currentMatch s;
     totalMatches := totalMatches s; html := html s |}.

Definition setCaseSensitive (b : bool) (s : Session) : Session :=
  {| findText := findText s; replaceText := replaceText s;
     caseSensitive := b; currentMatch := currentMatch s;
     totalMatches := totalMatches s; html := html s |}.

Definition setHtml (doc : string) (s : Session) : Session :=
  {| findText := findText s; replaceText := replaceText s;
     caseSensitive := caseSensitive s; currentMatch := currentMatch s;
     totalMatches := totalMatches s; html := doc |}.

(** The regular expression literal of line 29,
    [/[.*+?^${}()|[\]\\]/g]. *)
Definition escapeClass : RegExp :=
  {| source := [OneOf (list_ascii_of_string ".*+?^${}()|[]\")];
     global := true; ignoreCase := false |}.

(** Lines 28-30; the replacement is the two-character escape of the
    source followed by the match, i.e. the text [\$&]. *)
Definition escapeRegex (s : string) : string :=
  stringReplace escapeClass s "\$&".

(** Lines 33-49.  [None] is an exception of [new RegExp]. *)
Definition findNext (s : Session) : option Session :=
  if String.eqb (findText s) "" then Some s
  else
    let content := html s in
    let flags := if caseSensitive s then "g" else "gi" in
    match newRegExp (escapeRegex (findText s)) flags with
    | None => None
    | Some regex =>
        match stringMatch regex content with
        | Some matches => Some (setTotalMatches (List.length matches) s)
        | None => Some (setCurrentMatch 0 (setTotalMatches 0 s))
        end
    end.

(** The effect of lines 102-104 after the find field or the checkbox
    changed. *)
Definition changeFindText (q : string) (s : Session) : option Session :=
  findNext (setFindText q s).

Definition changeCaseSensitive (b : bool) (s : Session) : option Session :=
  findNext (setCaseSensitive b s).

Section Editor.

(** [setContent c] is the document the editor holds after
    [editor.commands.setContent(c)], as [getHTML] returns it. *)
Variable setContent : string -> string.

(** Lines 52-64. *)
Definition replaceNext (s : Session) : option Session :=
  if String.eqb (findText s) "" then Some s
  else
    let content := html s in
    let flags := if caseSensitive s then "" else "i" in
    match newRegExp (escapeRegex (findText s)) flags with
    | None => None
    | Some regex =>
        let newContent := stringReplace regex content (replaceText s) in
        if negb (String.eqb newContent content)
        then findNext (setHtml (setContent newContent) s)
        else Some s
    end.

(** Lines 67-80. *)
Definition replaceAll (s : Session) : option Session :=
  if String.eqb (findText s) "" then Some s
  else
    let content := html s in
    let flags := if caseSensitive s then "g" else "gi" in
    match newRegExp (escapeRegex (findText s)) flags with
    | None => None
    | Some regex =>
        let newContent := stringReplace regex content (replaceText s) in
        if negb (String.eqb newContent content)
        then Some (setCurrentMatch 0
                     (setTotalMatches 0 (setHtml (setContent newContent) s)))
        else Some s
    end.

End Editor.

End FindReplace.

(** ** Literal search and replacement, as the specification words them

    An occurrence of [q] is a place where the text reads [q], letter case
    apart when [ic] is set; occurrences are taken from left to right and do
    not overlap. *)

Module Literal.

Fixpoint occursAt (ic : bool) (q s : string) : bool :=
  match q, s with
  | EmptyString, _ => true
  | String a q', String b s' => Regex.charEq ic a b && occursAt ic q' s'
  | String _ _, EmptyString => false
  end.

Fixpoint countFrom (ic : bool) (q : string) (skip : nat) (s : string) : nat :=
  match s with
  | EmptyString => 0
  | String _ s' =>
      match skip with
      | S k => countFrom ic q k s'
      | O =>
          if occursAt ic q s
          then S (countFrom ic q (Nat.pred (String.length q)) s')
          else countFrom ic q 0 s'
      end
  end.

Definition countOccurrences (ic : bool) (q s : string) : nat :=
  countFrom ic q 0 s.

(** Every occurrence (or, when [every] is off, the first one only) gives
    way to the text [r], put in as it is. *)
Fixpoint replaceFrom (ic : bool) (q r : string) (every : bool) (skip : nat)
    (live : bool) (s : string) : string :=
  match s with
  | EmptyString => EmptyString
  | String c s' =>
      match skip with
      | S k => replaceFrom ic q r every k live s'
      | O =>
          if live && occursAt ic q s
          then r ++ replaceFrom ic q r every (Nat.pred (String.length q)) every s'
          else String c (replaceFrom ic q r every 0 live s')
      end
  end.

Definition replaceEvery (ic : bool) (q r s : string) : string :=
  replaceFrom ic q r true 0 true s.

Definition replaceFirst (ic : bool) (q r s : string) : string :=
  replaceFrom ic q r false 0 true s.

(** The text [s] with a backslash before each syntax character. *)
Fixpoint escaped (s : string) : string :=
  match s with
  | EmptyString => EmptyString
  | String c s' =>
      if Regex.isSyntaxCharacter c
      then String "\" (String c (escaped s'))
      else String c (escaped s')
  end.

(** The atoms of the text [q] read as a pattern without syntax. *)
Definition literals (q : string) : list Regex.atom :=
  map Regex.Lit (list_ascii_of_string q).

Fixpoint hasDollar (r : string) : bool :=
  match r with
  | EmptyString => false
  | String c r' => Ascii.eqb c "$" || hasDollar r'
  end.

End Literal.

(** ** Sessions used as examples *)

Module Scenario.

Import App.

(** A clock reading, in milliseconds. *)
Definition closingTime : Z := 1700000000000.

(** The only tab of the initial registry is closed. *)
Definition afterClosingSoleTab : State :=
  closeTab closingTime "tab-1" initialState.

(** Two tabs are created while the clock shows the same millisecond. *)
Definition twoTabsSameInstant : State :=
  fst (createNewTab closingTime (fst (createNewTab closingTime initialState))).

(** A file was opened into the first tab. *)
Definition openedTab : Tab :=
  {| id := "tab-1"; title := "notes.md"; filePath := Some "C:\docs\notes.md";
     content := "<p>abc</p>"; isModified := false |}.

Definition openedDocument : State :=
  {| tabs := [openedTab]; activeTabId := "tab-1" |}.

(** A modified tab in the background of an unmodified active tab. *)
Definition editedTab : Tab :=
  {| id := "tab-2"; title := "Untitled"; filePath := None;
     content := "<p>draft</p>"; isModified := true |}.

Definition editedInBackground : State :=
  {| tabs := [openedTab; editedTab]; activeTabId := "tab-1" |}.

Definition editedInFront : State :=
  {| tabs := [openedTab; editedTab]; activeTabId := "tab-2" |}.

(** Three tabs A, B and C with the given one active. *)
Definition threeTabs (active : string) : State :=
  {| tabs := [untitled "A"; untitled "B"; untitled "C"];
     activeTabId := active |}.

(** The user who keeps the changes, and the one who discards them. *)
Definition decline : string -> option bool := fun _ => Some false.
Definition accept : string -> option bool := fun _ => Some true.

(** An editor that holds the text it is given. *)
Definition plainEditor : string -> string := fun c => c.

(** The dialog over a document, with both fields filled in. *)
Definition dialogOver (doc q r : string) : FindReplace.Session :=
  FindReplace.setReplaceText r
    (FindReplace.setFindText q (FindReplace.openDialog doc)).

Definition catDog : FindReplace.Session := dialogOver "cat cat dog" "cat" "dog".

(** The dialog after "cat" was searched for in "cat cat dog": two matches
    are on display. *)
Definition catSearched : FindReplace.Session :=
  FindReplace.setTotalMatches 2 catDog.

End Scenario.

(** ** The recent-files list ([App.tsx], lines 56-90) *)

Module Recent.

Section Storage.

(** [localStorage.setItem] of the list: whether it succeeds (it throws
    otherwise, and the [catch] of line 72 leaves the list as it was). *)
Variable setItem : list string -> bool.

(** Lines 68-75. *)
Definition saveRecentFiles (files recent : list string) : list string :=
  if setItem files then files else recent.

(** Lines 77-80. *)
Definition addToRecentFiles (filePath : string) (recent : list string)
    : list string :=
  let updated :=
    firstn 10
      (filePath :: filter (fun f => negb (String.eqb f filePath)) recent) in
  saveRecentFiles updated recent.

(** Lines 82-85. *)
Definition removeFromRecentFiles (filePath : string) (recent : list string)
    : list string :=
  let updated := filter (fun f => negb (String.eqb f filePath)) recent in
  saveRecentFiles updated recent.

End Storage.

(** A store that takes every list. *)
Definition storing : list string -> bool := fun _ => true.

(** A store that is full. *)
Definition failing : list string -> bool := fun _ => false.

End Recent.

(** ** Text helpers of the properties below *)

Module Text.

(** Whether the character occurs in the text. *)
Fixpoint contains (c : ascii) (s : string) : bool :=
  match s with
  | EmptyString => false
  | String d rest => Ascii.eqb d c || contains c rest
  end.

(** Whether the text ends with the character. *)
Fixpoint endsWith (c : ascii) (s : string) : bool :=
  match s with
  | EmptyString => false
  | String d EmptyString => Ascii.eqb d c
  | String _ rest => endsWith c rest
  end.

(** ['#'.repeat(n)] and the like. *)
Fixpoint repeat (c : ascii) (n : nat) : string :=
  match n with
  | O => EmptyString
  | S k => String c (repeat c k)
  end.

(** The line feed, ['\n']. *)
Definition LF : ascii := "010"%char.

End Text.

(** ** File names and the two conversions ([App.tsx]) *)

Module Convert.

Import Regex.

(** Lines 268, 301, 340 and 358:
    [path.split('\\').pop() || path.split('/').pop() || 'Untitled']; the
    empty string is falsy. *)
Definition fileNameOf (path : string) : string :=
  let byBackslash := Str.lastSegment "\" path in
  if negb (String.eqb byBackslash "") then byBackslash
  else
    let bySlash := Str.lastSegment "/" path in
    if negb (String.eqb bySlash "") then bySlash else "Untitled".

(** A regular expression literal that is plain text, with the [g] flag:
    [/<p>/g], [/<\/p>/g] (the backslash there only escapes the delimiter)
    and the like. *)
Definition plainGlobal (text : string) : RegExp :=
  {| source := map Lit (list_ascii_of_string text);
     global := true; ignoreCase := false |}.

Definition digits1to6 : list ascii := list_ascii_of_string "123456".

(** [/<h([1-6])>/g]; the group is the third character of a match. *)
Definition headingOpen : RegExp :=
  {| source := [Lit "<"; Lit "h"; OneOf digits1to6; Lit ">"];
     global := true; ignoreCase := false |}.

(** [/<\/h[1-6]>/g]. *)
Definition headingClose : RegExp :=
  {| source := [Lit "<"; Lit "/"; Lit "h"; OneOf digits1to6; Lit ">"];
     global := true; ignoreCase := false |}.

(** [s.replace(re, callback)]: as [Regex.replaceScan], with the text the
    callback returns for the matched text put in as it is. *)
Fixpoint replaceScanWith (ic : bool) (atoms : list atom) (g : bool)
    (callback : string -> string) (skip : nat) (live : bool) (s : string)
    : string :=
  match s with
  | EmptyString =>
      if live && (skip =? 0)%nat && matchAtoms ic atoms EmptyString
      then callback EmptyString
      else EmptyString
  | String c s' =>
      match skip with
      | S k => replaceScanWith ic atoms g callback k live s'
      | O =>
          if live && matchAtoms ic atoms s then
            let n := List.length atoms in
            callback (Str.take n s)
            ++ match n with
               | O => String c (replaceScanWith ic atoms g callback 0 g s')
               | S k => replaceScanWith ic atoms g callback k g s'
               end
          else String c (replaceScanWith ic atoms g callback 0 live s')
      end
  end.

Definition stringReplaceWith (re : RegExp) (s : string)
    (callback : string -> string) : string :=
  replaceScanWith (ignoreCase re) (source re) (global re) callback 0 true s.

(** [parseInt] of a capture of [[1-6]]: the value of a decimal digit (0
    stands for the [NaN] of any other text, which [repeat] takes as 0). *)
Definition parseDigit (level : string) : nat :=
  match level with
  | String d EmptyString =>
      let n := nat_of_ascii d in
      if (48 <=? n)%nat && (n <=? 57)%nat then n - 48 else 0
  | _ => 0
  end.

(** The callback of lines 263 and 336:
    [(_match, level) => '#'.repeat(parseInt(level)) + ' ']. *)
Definition headingMark (matched : string) : string :=
  let level := substring 2 1 matched in
  Text.repeat "#" (parseDigit level) ++ " ".

Definition twoLines : string := String Text.LF (String Text.LF EmptyString).
Definition oneLine : string := String Text.LF EmptyString.

(** Lines 255-264 (and 328-337): the chain of replacements that turns the
    editor's HTML into the text that is written. *)
Definition htmlToMarkdown (htmlContent : string) : string :=
  let s1 := stringReplace (plainGlobal "<p>") htmlContent "" in
  let s2 := stringReplace (plainGlobal "</p>") s1 twoLines in
  let s3 := stringReplace (plainGlobal "<br>") s2 oneLine in
  let s4 := stringReplace (plainGlobal "<strong>") s3 "**" in
  let s5 := stringReplace (plainGlobal "</strong>") s4 "**" in
  let s6 := stringReplace (plainGlobal "<em>") s5 "*" in
  let s7 := stringReplace (plainGlobal "</em>") s6 "*" in
  let s8 := stringReplaceWith headingOpen s7 headingMark in
  stringReplace headingClose s8 twoLines.

(** Lines 300 and 357: [content.replace(/\n/g, '<br>')]. *)
Definition markdownToHtml (content : string) : string :=
  stringReplace {| source := [Lit Text.LF]; global := true; ignoreCase := false |}
    content "<br>".

(** The status text of the toolbar, [Toolbar.tsx] lines 458-459. *)
Definition statusText (currentFile : option string) (modified : bool) : string :=
  (match currentFile with
   | Some path =>
       if String.eqb path "" then "Untitled"
       else
         let byBackslash := Str.lastSegment "\" path in
         if negb (String.eqb byBackslash "") then byBackslash
         else Str.lastSegment "/" path
   | None => "Untitled"
   end) ++ (if modified then "*" else "").

End Convert.

(** ** The conversions, worded directly *)

Module Plain.

(** The text with [<br>] in place of each line feed. *)
Fixpoint lineBreaks (s : string) : string :=
  match s with
  | EmptyString => EmptyString
  | String c rest =>
      if Ascii.eqb c Text.LF then "<br>" ++ lineBreaks rest
      else String c (lineBreaks rest)
  end.

(** How many times the character occurs. *)
Fixpoint count (c : ascii) (s : string) : nat :=
  match s with
  | EmptyString => 0
  | String d rest => (if Ascii.eqb d c then 1 else 0) + count c rest
  end.

End Plain.

(** ** Headings *)

Module Heading.

(** The digit of a level. *)
Definition digit (n : nat) : ascii := ascii_of_nat (48 + n).

(** [<hN>] and [</hN>]. *)
Definition opening (n : nat) : string :=
  String "<" (String "h" (String (digit n) ">")).

Definition closing (n : nat) : string :=
  String "<" (String "/" (String "h" (String (digit n) ">"))).

End Heading.

(** ** The file handlers ([App.tsx], lines 234-368) *)

Module Files.

Import App Recent Convert.

(** The registry together with the recent-files list (line 49). *)
Record Session : Type := mkSession {
  registry : State;
  recentFiles : list string
}.

(** What the handlers call outside the component.  A dialog answers with a
    path, with nothing (cancelled), or fails; reading gives the text or
    fails; writing and storing succeed or fail. *)
Record Host : Type := mkHost {
  confirm : string -> option bool;
  save : option (option string);
  open : option (option string);
  readTextFile : string -> option string;
  writeTextFile : string -> string -> bool;
  setItem : list string -> bool
}.

(** The calls a handler made to the dialogs, the file system and the
    store, in order (what is logged with [console.error] is not
    recorded).  [SetItem files] is the [localStorage.setItem] of line 70
    with the list it is given. *)
Inductive Call : Type :=
| Asked (message : string)
| SaveDialog
| OpenDialog
| ReadFile (path : string)
| WriteFile (path text : string)
| SetItem (files : list string).

(** The lists lines 78 and 83 hand to [saveRecentFiles]. *)
Definition listAfterAdd (filePath : string) (recent : list string)
    : list string :=
  firstn 10 (filePath :: filter (fun f => negb (String.eqb f filePath)) recent).

Definition listAfterRemove (filePath : string) (recent : list string)
    : list string :=
  filter (fun f => negb (String.eqb f filePath)) recent.

(** A path a dialog returned, if it is truthy. *)
Definition chosen (answer : option (option string)) : option string :=
  match answer with
  | Some (Some path) => if String.eqb path "" then None else Some path
  | _ => None
  end.

(** What a successful save or open does to the session: lines 268-270,
    341-342 ([updateTabFile], [addToRecentFiles]). *)
Definition bindActive (h : Host) (path : string) (s : Session) : Session :=
  {| registry := updateTabFile (activeTabId (registry s)) (Some path)
                   (fileNameOf path) false (registry s);
     recentFiles := addToRecentFiles (setItem h) path (recentFiles s) |}.

(** Lines 234-276.  [editor] is [None] while the editor is not there, and
    otherwise the HTML it holds.  The [catch] of line 272 takes a failing
    dialog, a failing write and an [activeTab] that is [undefined]. *)
Definition handleSaveFile (h : Host) (editor : option string) (s : Session)
    : bool * Session * list Call :=
  match editor with
  | None => (false, s, [])
  | Some htmlContent =>
      match activeTab (registry s) with
      | None => (false, s, [])
      | Some tab =>
          let bound :=
            match filePath tab with
            | Some path => if String.eqb path "" then None else Some path
            | None => None
            end in
          let (target, calls) :=
            match bound with
            | Some path => (Some path, [])
            | None => (chosen (save h), [SaveDialog])
            end in
          match target with
          | None => (false, s, calls)
          | Some path =>
              let markdownContent := htmlToMarkdown htmlContent in
              let calls := (calls ++ [WriteFile path markdownContent])%list in
              if writeTextFile h path markdownContent
              then (true, bindActive h path s,
                    (calls ++ [SetItem (listAfterAdd path (recentFiles s))])%list)
              else (false, s, calls)
          end
      end
  end.

(** Lines 312-346. *)
Definition handleSaveAsFile (h : Host) (editor : option string) (s : Session)
    : Session * list Call :=
  match editor with
  | None => (s, [])
  | Some htmlContent =>
      match chosen (save h) with
      | None => (s, [SaveDialog])
      | Some path =>
          let markdownContent := htmlToMarkdown htmlContent in
          let calls := [SaveDialog; WriteFile path markdownContent] in
          if writeTextFile h path markdownContent
          then (bindActive h path s,
                (calls ++ [SetItem (listAfterAdd path (recentFiles s))])%list)
          else (s, calls)
      end
  end.

(** What reading a file into the active tab does to the session: lines
    300-305 and 357-362. *)
Definition loadActive (h : Host) (path content : string) (s : Session)
    : Session :=
  let active := activeTabId (registry s) in
  {| registry :=
       updateTabContent active (markdownToHtml content) false
         (updateTabFile active (Some path) (fileNameOf path) false (registry s));
     recentFiles := addToRecentFiles (setItem h) path (recentFiles s) |}.

(** Lines 283-310. *)
Definition handleOpenFile (h : Host) (editor : option string) (s : Session)
    : Session * list Call :=
  match editor with
  | None => (s, [])
  | Some _ =>
      let (proceed, shown) := checkUnsavedChanges (confirm h) None (registry s) in
      let asked := map Asked shown in
      if negb proceed then (s, asked)
      else
        match chosen (open h) with
        | None => (s, (asked ++ [OpenDialog])%list)
        | Some selected =>
            let calls := (asked ++ [OpenDialog; ReadFile selected])%list in
            match readTextFile h selected with
            | None => (s, calls)
            | Some content =>
                (loadActive h selected content s,
                 (calls ++ [SetItem (listAfterAdd selected (recentFiles s))])%list)
            end
        end
  end.

(** Lines 348-368. *)
Definition handleOpenRecentFile (h : Host) (editor : option string)
    (filePath : string) (s : Session) : Session * list Call :=
  match editor with
  | None => (s, [])
  | Some _ =>
      let (proceed, shown) := checkUnsavedChanges (confirm h) None (registry s) in
      let asked := map Asked shown in
      if negb proceed then (s, asked)
      else
        let calls := (asked ++ [ReadFile filePath])%list in
        match readTextFile h filePath with
        | None =>
            ({| registry := registry s;
                recentFiles :=
                  removeFromRecentFiles (setItem h) filePath (recentFiles s) |},
             (calls ++ [SetItem (listAfterRemove filePath (recentFiles s))])%list)
        | Some content =>
            (loadActive h filePath content s,
             (calls ++ [SetItem (listAfterAdd filePath (recentFiles s))])%list)
        end
  end.

(** The ids of the tabs, in order, and the active id. *)
Definition shape (s : Session) : list string * string :=
  (map id (tabs (registry s)), activeTabId (registry s)).

(** Ctrl+R, lines 396-402: the most recent file, if there is one. *)
Definition openMostRecent (h : Host) (editor : option string) (s : Session)
    : Session * list Call :=
  match recentFiles s with
  | [] => (s, [])
  | path :: _ => handleOpenRecentFile h editor path s
  end.

End Files.

(** ** Hosts and sessions used as examples *)

Module Cases.

Import App Files.

(** A host whose user declines to discard, picks files in both dialogs,
    and whose disk holds one readable file. *)
Definition desk : Host :=
  {| confirm := fun _ => Some false;
     save := Some (Some "C:\docs\new.md");
     open := Some (Some "C:\docs\notes.md");
     readTextFile := fun path =>
       if String.eqb path "C:\docs\notes.md"
       then Some ("one" ++ String Text.LF "two")
       else None;
     writeTextFile := fun _ _ => true;
     setItem := fun _ => true |}.

(** The same host with a user who discards. *)
Definition deskDiscarding : Host :=
  {| confirm := fun _ => Some true;
     save := save desk; open := open desk;
     readTextFile := readTextFile desk;
     writeTextFile := writeTextFile desk;
     setItem := setItem desk |}.

(** The same host with a user who cancels the dialogs. *)
Definition deskCancelling : Host :=
  {| confirm := confirm desk;
     save := Some None; open := Some None;
     readTextFile := readTextFile desk;
     writeTextFile := writeTextFile desk;
     setItem := setItem desk |}.

(** The session at start, and sessions over the registries of the
    scenarios. *)
Definition atStart : Session :=
  {| registry := initialState; recentFiles := [] |}.

Definition withOpened : Session :=
  {| registry := Scenario.openedDocument;
     recentFiles := ["C:\docs\gone.md"; "C:\docs\notes.md"] |}.

Definition withEdited : Session :=
  {| registry := Scenario.editedInFront;
     recentFiles := ["C:\docs\notes.md"] |}.

Definition afterSoleClose : Session :=
  {| registry := Scenario.afterClosingSoleTab; recentFiles := [] |}.

End Cases.

(** ** The tab bar ([TabBar.tsx]) *)

Module TabBar.

Import App.

(** What is drawn for one tab: lines 49-107. *)
Record TabView : Type := mkTabView {
  label : string;        (* line 81 *)
  highlighted : bool;    (* [tab.id === activeTabId], lines 55-57 and 72-73 *)
  key : string           (* the id the click and the close button pass on *)
}.

Definition render (st : State) : list TabView :=
  map (fun tab =>
         {| label := title tab ++ (if isModified tab then "*" else "");
            highlighted := String.eqb (id tab) (activeTabId st);
            key := id tab |})
      (tabs st).

(** A click on the [i]-th tab (line 66): [onTabSelect(tab.id)]. *)
Definition click (i : nat) (st : State) : State :=
  match nth_error (render st) i with
  | Some view => selectTab (key view) st
  | None => st
  end.

End TabBar.

(** ** Pressing Ctrl+Tab several times *)

Module Keys.

Import App.

Fixpoint pressNext (k : nat) (st : State) : option State :=
  match k with
  | O => Some st
  | S k' =>
      match cycleNext st with
      | Some st' => pressNext k' st'
      | None => None
      end
  end.

End Keys.

(** * Properties of the tab registry *)

Section RegistryFacts.

Import App.

Lemma registered_iff (tabId : string) (ts : list Tab) :
  registered tabId ts = true <-> exists tab, In tab ts /\ id tab = tabId.
Proof.
  unfold registered. rewrite existsb_exists.
  split; intros [tab [Hin H]]; exists tab; split; auto.
  - now apply String.eqb_eq.
  - now apply String.eqb_eq.
Qed.

Lemma registered_ids (tabId : string) (ts : list Tab) :
  registered tabId ts = existsb (fun i => String.eqb i tabId) (map id ts).
Proof.
  unfold registered. induction ts as [|tab ts IH]; simpl; [reflexivity|].
  now rewrite IH.
Qed.

Lemma findTab_registered (tabId : string) (ts : list Tab) :
  registered tabId ts = true <-> exists tab, findTab tabId ts = Some tab.
Proof.
  unfold registered, findTab. induction ts as [|t ts IH]; simpl.
  - split; [discriminate | intros [tab H]; discriminate].
  - destruct (String.eqb (id t) tabId); simpl.
    + split; [intros _; now exists t | reflexivity].
    + exact IH.
Qed.

Lemma findTab_id (tabId : string) (ts : list Tab) (tab : Tab) :
  findTab tabId ts = Some tab -> id tab = tabId /\ In tab ts.
Proof.
  unfold findTab. intros H. apply find_some in H. destruct H as [Hin H].
  split; [now apply String.eqb_eq | assumption].
Qed.

Lemma updateTabContent_ids tabId c m st :
  map id (tabs (updateTabContent tabId c m st)) = map id (tabs st).
Proof.
  unfold updateTabContent; simpl. rewrite map_map.
  apply map_ext. intros tab. now destruct (String.eqb (id tab) tabId).
Qed.

Lemma updateTabFile_ids tabId path t m st :
  map id (tabs (updateTabFile tabId path t m st)) = map id (tabs st).
Proof.
  unfold updateTabFile; simpl. rewrite map_map.
  apply map_ext. intros tab. now destruct (String.eqb (id tab) tabId).
Qed.

(** The invariant only depends on the ids, in order, and on [activeTabId]. *)
Lemma invariant_same_ids (st st' : State) :
  map id (tabs st') = map id (tabs st) ->
  activeTabId st' = activeTabId st ->
  invariant st -> invariant st'.
Proof.
  unfold invariant. intros Hids Hact [Hne Hreg]. split.
  - intros Hnil. rewrite Hnil in Hids. simpl in Hids.
    symmetry in Hids. apply map_eq_nil in Hids. contradiction.
  - rewrite registered_ids, Hids, Hact, <- registered_ids. exact Hreg.
Qed.

Lemma updateTabContent_invariant tabId c m st :
  invariant st -> invariant (updateTabContent tabId c m st).
Proof.
  apply invariant_same_ids; [apply updateTabContent_ids | reflexivity].
Qed.

Lemma updateTabFile_invariant tabId path t m st :
  invariant st -> invariant (updateTabFile tabId path t m st).
Proof.
  apply invariant_same_ids; [apply updateTabFile_ids | reflexivity].
Qed.

Lemma createNewTab_invariant now st :
  invariant (fst (createNewTab now st)).
Proof.
  unfold invariant, createNewTab; simpl. split.
  - intros H. apply app_eq_nil in H. destruct H as [_ H]. discriminate.
  - apply registered_iff. exists (untitled (tabIdAt now)). split.
    + apply in_or_app. right. now left.
    + reflexivity.
Qed.

Lemma selectTab_invariant tabId st :
  tabs st <> [] -> registered tabId (tabs st) = true ->
  invariant (selectTab tabId st).
Proof.
  intros Hne Hreg. split; assumption.
Qed.

Lemma tabAt_In i ts tab : tabAt i ts = Some tab -> In tab ts.
Proof.
  unfold tabAt. destruct (i <? 0)%Z; [discriminate|].
  apply nth_error_In.
Qed.

Lemma tab_In_registered tab ts : In tab ts -> registered (id tab) ts = true.
Proof.
  intros H. apply registered_iff. now exists tab.
Qed.

Lemma cycleNext_invariant st st' :
  cycleNext st = Some st' -> invariant st'.
Proof.
  unfold cycleNext. destruct (tabAt _ (tabs st)) as [tab|] eqn:E; [|discriminate].
  intros H. injection H as <-. apply tabAt_In in E.
  apply selectTab_invariant.
  - intros Hnil. rewrite Hnil in E. contradiction.
  - now apply tab_In_registered.
Qed.

Lemma cyclePrevious_invariant st st' :
  cyclePrevious st = Some st' -> invariant st'.
Proof.
  unfold cyclePrevious. destruct (tabAt _ (tabs st)) as [tab|] eqn:E; [|discriminate].
  intros H. injection H as <-. apply tabAt_In in E.
  apply selectTab_invariant.
  - intros Hnil. rewrite Hnil in E. contradiction.
  - now apply tab_In_registered.
Qed.

Lemma onUpdate_invariant c st st' :
  invariant st -> onUpdate c st = Some st' -> invariant st'.
Proof.
  unfold onUpdate. intros Hinv. destruct (activeTab st); [|discriminate].
  intros H. injection H as <-. now apply updateTabContent_invariant.
Qed.

End RegistryFacts.

(** ** Closing a tab *)

Section CloseTabFacts.

Import App.

Lemma length_zero_nil {A : Type} (l : list A) :
  (List.length l =? 0)%nat = true <-> l = [].
Proof.
  destruct l; simpl; split; intros H; try reflexivity; discriminate.
Qed.

Lemma closeTab_tabs_remaining now tabId st :
  remaining tabId st <> [] ->
  tabs (closeTab now tabId st) = remaining tabId st.
Proof.
  intros Hne. unfold closeTab; simpl. fold (remaining tabId st).
  destruct (List.length (remaining tabId st) =? 0)%nat eqn:E; [|reflexivity].
  apply length_zero_nil in E. contradiction.
Qed.

Lemma closeTab_tabs_fresh now tabId st :
  remaining tabId st = [] ->
  closeTab now tabId st =
  {| tabs := [untitled (tabIdAt now)]; activeTabId := activeTabId st |}.
Proof.
  intros Hnil. unfold closeTab. fold (remaining tabId st). rewrite Hnil. simpl.
  now rewrite andb_false_r.
Qed.

Lemma closeTab_never_empty now tabId st :
  tabs (closeTab now tabId st) <> [].
Proof.
  destruct (remaining tabId st) eqn:E.
  - rewrite closeTab_tabs_fresh by assumption. discriminate.
  - rewrite closeTab_tabs_remaining; rewrite E; discriminate.
Qed.

Lemma nth_error_last_some {A : Type} (l : list A) (d : A) :
  l <> [] -> nth_error l (List.length l - 1) = Some (last l d).
Proof.
  induction l as [|a l IH]; [congruence|]. intros _.
  destruct l as [|b l].
  - reflexivity.
  - assert (H : b :: l <> []) by discriminate.
    specialize (IH H). simpl in IH. rewrite Nat.sub_0_r in IH.
    change (nth_error (a :: b :: l) (S (List.length l) - 0)) with
      (nth_error (a :: b :: l) (S (List.length l))).
    simpl nth_error at 1. rewrite IH. reflexivity.
Qed.

(** Closing the active tab while others remain activates the last of the
    remaining tabs. *)
Lemma closeTab_active_last now st (d : Tab) :
  remaining (activeTabId st) st <> [] ->
  activeTabId (closeTab now (activeTabId st) st)
  = id (last (remaining (activeTabId st) st) d).
Proof.
  intros Hne. unfold closeTab; simpl. fold (remaining (activeTabId st) st).
  rewrite String.eqb_refl. simpl.
  destruct (0 <? List.length (remaining (activeTabId st) st))%nat eqn:E.
  - now rewrite (nth_error_last_some _ d Hne).
  - apply Nat.ltb_ge in E. destruct (remaining (activeTabId st) st); simpl in *.
    + contradiction.
    + lia.
Qed.

(** Closing another tab than the active one leaves [activeTabId] alone. *)
Lemma closeTab_other_active now tabId st :
  tabId <> activeTabId st ->
  activeTabId (closeTab now tabId st) = activeTabId st.
Proof.
  intros Hne. unfold closeTab; simpl.
  apply String.eqb_neq in Hne. now rewrite Hne.
Qed.

(** The invariant survives [closeTab] whenever a tab remains. *)
Lemma closeTab_invariant_remaining now tabId st :
  invariant st -> remaining tabId st <> [] ->
  invariant (closeTab now tabId st).
Proof.
  intros [_ Hreg] Hne. split; [apply closeTab_never_empty|].
  rewrite closeTab_tabs_remaining by assumption.
  destruct (String.eqb_spec tabId (activeTabId st)) as [->|Hdiff].
  - rewrite (closeTab_active_last now st (untitled "")) by assumption.
    apply tab_In_registered.
    destruct (exists_last Hne) as [l [a ->]]. rewrite last_last.
    apply in_or_app. right. now left.
  - rewrite closeTab_other_active by assumption.
    apply registered_iff in Hreg. destruct Hreg as [tab [Hin Hid]].
    apply registered_iff. exists tab. split; [|assumption].
    unfold remaining. apply filter_In. split; [assumption|].
    apply negb_true_iff. apply String.eqb_neq. congruence.
Qed.

(** With ids that are not shared, [closeTab] drops the one tab that has
    the id and keeps the others in their order. *)
Lemma remaining_removes_exactly (st : State) (l1 l2 : list Tab) (tab : Tab) :
  tabs st = (l1 ++ tab :: l2)%list ->
  (forall t, In t (l1 ++ l2)%list -> id t <> id tab) ->
  remaining (id tab) st = (l1 ++ l2)%list.
Proof.
  intros Htabs Hothers. unfold remaining. rewrite Htabs.
  assert (Hkeep : forall l, (forall t, In t l -> id t <> id tab) ->
            filter (fun t => negb (String.eqb (id t) (id tab))) l = l).
  { intros l Hl. apply forallb_filter_id. apply forallb_forall.
    intros t Hin. apply negb_true_iff. apply String.eqb_neq. now apply Hl. }
  rewrite filter_app. cbn [filter]. rewrite String.eqb_refl. cbn [negb].
  rewrite !Hkeep; [reflexivity | |];
    intros t Hin; apply Hothers; apply in_or_app; [right | left]; assumption.
Qed.

End CloseTabFacts.

(** ** Cycling through the tabs *)

Section CycleFacts.

Import App Scenario.

(** Ctrl+Tab goes A, B, C and back to A; Ctrl+Shift+Tab goes from A to C. *)
Lemma cycle_three_tabs :
  cycleNext (threeTabs "A") = Some (threeTabs "B") /\
  cycleNext (threeTabs "B") = Some (threeTabs "C") /\
  cycleNext (threeTabs "C") = Some (threeTabs "A") /\
  cyclePrevious (threeTabs "A") = Some (threeTabs "C").
Proof. repeat split; reflexivity. Qed.

(** With the dangling id left by [closeTab], Ctrl+Tab repairs it and
    Ctrl+Shift+Tab raises. *)
Lemma cycle_after_closing_sole_tab :
  cycleNext afterClosingSoleTab
  = Some {| tabs := tabs afterClosingSoleTab;
            activeTabId := "tab-1700000000000" |} /\
  cyclePrevious afterClosingSoleTab = None.
Proof. split; reflexivity. Qed.

End CycleFacts.

(** ** The state after the only tab was closed *)

Section SoleTab.

Import App Scenario.

(** C1 (the code departs from the claim).  The initial registry satisfies
    the invariant; after [closeTab] of its only tab the registry holds the
    replacement tab, and [activeTabId] still is the id of the tab that was
    removed: the invariant is lost. *)
Theorem closeTab_sole_tab_breaks_invariant :
  invariant initialState /\
  tabs afterClosingSoleTab <> [] /\
  registered (activeTabId afterClosingSoleTab) (tabs afterClosingSoleTab) = false /\
  ~ invariant afterClosingSoleTab.
Proof.
  split; [split; [discriminate | reflexivity]|].
  split; [discriminate|].
  split; [reflexivity|].
  intros [_ H]. vm_compute in H. discriminate.
Qed.

(** C2 (the code departs from the claim).  Closing the only tab puts one
    fresh default tab in the registry, and does not activate it:
    [activeTabId] keeps the id of the closed tab and no tab has it. *)
Theorem closeTab_sole_tab_not_activated :
  afterClosingSoleTab =
    {| tabs := [untitled "tab-1700000000000"]; activeTabId := "tab-1" |} /\
  findTab (activeTabId afterClosingSoleTab) (tabs afterClosingSoleTab) = None /\
  map id (tabs afterClosingSoleTab) <> [activeTabId afterClosingSoleTab].
Proof.
  split; [reflexivity|]. split; [reflexivity|].
  vm_compute. discriminate.
Qed.

(** What follows from the dangling id: an edit in the editor reaches no
    tab, and Ctrl+W (close the active tab) does nothing. *)
Lemma dangling_active_edit_lost :
  onUpdate "<p>hello</p>" afterClosingSoleTab = Some afterClosingSoleTab.
Proof. reflexivity. Qed.

Lemma dangling_active_close_ignored (confirm : string -> option bool) (now : Z) :
  handleCloseTab confirm now (activeTabId afterClosingSoleTab) afterClosingSoleTab
  = (afterClosingSoleTab, []).
Proof. reflexivity. Qed.

(** The defect in general: when no tab remains and the clock does not
    happen to print the closed id again, the new [activeTabId] names no
    tab. *)
Lemma closeTab_sole_tab_dangling now st :
  remaining (activeTabId st) st = [] ->
  tabIdAt now <> activeTabId st ->
  registered (activeTabId (closeTab now (activeTabId st) st))
             (tabs (closeTab now (activeTabId st) st)) = false.
Proof.
  intros Hnil Hfresh. rewrite closeTab_tabs_fresh by assumption.
  unfold registered, tabs, activeTabId, existsb, untitled, id.
  rewrite orb_false_r. now apply String.eqb_neq.
Qed.

End SoleTab.

(** ** Tab ids *)

Section TabIds.

Import App Scenario.

Lemma ofNumber_inj (a b : Z) : Str.ofNumber a = Str.ofNumber b -> a = b.
Proof.
  unfold Str.ofNumber. intros H.
  apply (f_equal NilZero.int_of_string) in H.
  assert (Hnn : forall z, Z.to_int z <> Decimal.Pos Decimal.Nil
                          /\ Z.to_int z <> Decimal.Neg Decimal.Nil).
  { intros [|p|p]; simpl; split; try discriminate;
      intros E; injection E as E; now apply DecimalPos.Unsigned.to_uint_nonnil in E. }
  destruct (Hnn a) as [Ha1 Ha2]. destruct (Hnn b) as [Hb1 Hb2].
  rewrite !NilZero.isi in H by assumption.
  injection H as H. now apply DecimalZ.to_int_inj.
Qed.

(** Two ids printed from the clock are equal only for equal readings. *)
Lemma tabIdAt_inj (a b : Z) : tabIdAt a = tabIdAt b -> a = b.
Proof.
  unfold tabIdAt. simpl. intros H. injection H as H. now apply ofNumber_inj.
Qed.

(** C8 (the code departs from the claim).  Two [createNewTab] at the same
    clock reading return the same id, and the registry then holds two tabs
    under it. *)
Theorem createNewTab_same_instant_same_id :
  snd (createNewTab closingTime initialState)
  = snd (createNewTab closingTime (fst (createNewTab closingTime initialState))) /\
  map id (tabs twoTabsSameInstant)
  = ["tab-1"; "tab-1700000000000"; "tab-1700000000000"] /\
  ~ NoDup (map id (tabs twoTabsSameInstant)).
Proof.
  split; [reflexivity|]. split; [reflexivity|].
  intros H. vm_compute in H.
  inversion H as [|x l Hnotin Hnd]; subst.
  inversion Hnd as [|y l' Hnotin' Hnd']; subst.
  apply Hnotin'. now left.
Qed.

(** With a clock that has moved on, the two ids differ. *)
Lemma createNewTab_distinct_instants (t1 t2 : Z) (st1 st2 : State) :
  t1 <> t2 -> snd (createNewTab t1 st1) <> snd (createNewTab t2 st2).
Proof.
  intros Hne H. apply Hne. now apply tabIdAt_inj.
Qed.

End TabIds.

(** ** The two updates of a tab *)

Section UpdateFacts.

Import App Scenario.

(** Either update rewrites the tabs one by one with a function that keeps
    the id. *)
Lemma map_keeping_id_absent (f : Tab -> Tab) (tabId : string) (ts : list Tab) :
  registered tabId ts = false ->
  map (fun t => if String.eqb (id t) tabId then f t else t) ts = ts.
Proof.
  unfold registered. induction ts as [|t ts IH]; simpl; [reflexivity|].
  intros H. apply orb_false_iff in H. destruct H as [Ht Hts].
  rewrite Ht, IH by assumption. reflexivity.
Qed.

Lemma findTab_map_keeping_id (f : Tab -> Tab) (tabId key : string)
    (ts : list Tab) :
  (forall t, id (f t) = id t) ->
  findTab key (map (fun t => if String.eqb (id t) tabId then f t else t) ts)
  = option_map (fun t => if String.eqb (id t) tabId then f t else t)
               (findTab key ts).
Proof.
  intros Hid. unfold findTab. induction ts as [|t ts IH]; simpl; [reflexivity|].
  assert (E : id (if String.eqb (id t) tabId then f t else t) = id t)
    by (destruct (String.eqb (id t) tabId); [apply Hid | reflexivity]).
  rewrite E. destruct (String.eqb (id t) key); [reflexivity | exact IH].
Qed.

(** C10.  [updateTabContent] and [updateTabFile] keep [activeTabId], the
    number and the order of the tabs; a tab with another id is unchanged;
    a tab with the id keeps its id (and, under [updateTabContent], its
    path and title) and takes the new fields; when no tab has the id the
    state is unchanged. *)
Theorem updates_touch_only_the_target
    (tabId newContent newTitle : string) (path : option string)
    (modified : bool) (st : State) :
  let st1 := updateTabContent tabId newContent modified st in
  let st2 := updateTabFile tabId path newTitle modified st in
  (activeTabId st1 = activeTabId st /\ activeTabId st2 = activeTabId st) /\
  (List.length (tabs st1) = List.length (tabs st) /\
   List.length (tabs st2) = List.length (tabs st)) /\
  (map id (tabs st1) = map id (tabs st) /\
   map id (tabs st2) = map id (tabs st)) /\
  (forall i tab, nth_error (tabs st) i = Some tab -> id tab <> tabId ->
     nth_error (tabs st1) i = Some tab /\ nth_error (tabs st2) i = Some tab) /\
  (forall i tab, nth_error (tabs st) i = Some tab -> id tab = tabId ->
     nth_error (tabs st1) i
       = Some {| id := id tab; title := title tab; filePath := filePath tab;
                 content := newContent; isModified := modified |} /\
     nth_error (tabs st2) i
       = Some {| id := id tab; title := newTitle; filePath := path;
                 content := content tab; isModified := modified |}) /\
  (registered tabId (tabs st) = false -> st1 = st /\ st2 = st).
Proof.
  intros st1 st2.
  split; [split; reflexivity|].
  split; [split; unfold st1, st2; simpl; apply length_map|].
  split; [split; [apply updateTabContent_ids | apply updateTabFile_ids]|].
  split; [|split].
  - intros i tab Hnth Hne. apply String.eqb_neq in Hne.
    split; unfold st1, st2, updateTabContent, updateTabFile; simpl;
      rewrite nth_error_map, Hnth; simpl; now rewrite Hne.
  - intros i tab Hnth He. apply String.eqb_eq in He.
    split; unfold st1, st2, updateTabContent, updateTabFile; simpl;
      rewrite nth_error_map, Hnth; simpl; now rewrite He.
  - intros Habs. unfold st1, st2, updateTabContent, updateTabFile.
    split; destruct st as [ts a]; simpl in *; f_equal.
    + exact (map_keeping_id_absent
               (fun tab => {| id := id tab; title := title tab;
                              filePath := filePath tab;
                              content := newContent; isModified := modified |})
               tabId ts Habs).
    + exact (map_keeping_id_absent
               (fun tab => {| id := id tab; title := newTitle;
                              filePath := path;
                              content := content tab; isModified := modified |})
               tabId ts Habs).
Qed.

Lemma updates_touch_only_the_target_witness :
  nth_error (tabs (updateTabContent "tab-2" "<p>x</p>" true editedInFront)) 0
    = Some openedTab /\
  nth_error (tabs (updateTabFile "tab-2" (Some "C:\d.md") "d.md" false editedInFront)) 1
    = Some {| id := "tab-2"; title := "d.md"; filePath := Some "C:\d.md";
              content := "<p>draft</p>"; isModified := false |} /\
  updateTabContent "tab-9" "<p>x</p>" true editedInFront = editedInFront.
Proof.
  pose proof (updates_touch_only_the_target
                "tab-2" "<p>x</p>" "d.md" (Some "C:\d.md") true editedInFront)
    as [_ [_ [_ [Hother _]]]].
  pose proof (updates_touch_only_the_target
                "tab-2" "<p>x</p>" "d.md" (Some "C:\d.md") false editedInFront)
    as [_ [_ [_ [_ [Htarget _]]]]].
  pose proof (updates_touch_only_the_target
                "tab-9" "<p>x</p>" "d.md" (Some "C:\d.md") true editedInFront)
    as [_ [_ [_ [_ [_ Habsent]]]]].
  split; [|split].
  - apply (Hother 0%nat openedTab); [reflexivity | discriminate].
  - apply (Htarget 1%nat editedTab); reflexivity.
  - apply Habsent. reflexivity.
Defined.

End UpdateFacts.

(** ** The unsaved-change guard *)

Section GuardFacts.

Import App Scenario.

Variable confirm : string -> option bool.

Lemma checkUnsavedChanges_unmodified tabId st tab :
  guardedTab tabId st = Some tab -> isModified tab = false ->
  checkUnsavedChanges confirm tabId st = (true, []).
Proof.
  intros Htab Hclean. unfold checkUnsavedChanges. rewrite Htab, Hclean.
  reflexivity.
Qed.

(** The guard shows at most one message, and answers [true] without one
    only. *)
Lemma checkUnsavedChanges_prompts tabId st :
  (List.length (snd (checkUnsavedChanges confirm tabId st)) <= 1)%nat.
Proof.
  unfold checkUnsavedChanges. destruct (guardedTab tabId st) as [tab|]; simpl; [|lia].
  destruct (isModified tab); simpl; [|lia].
  destruct (confirm _); simpl; lia.
Qed.

(** C3.  The guard answers [true] and shows nothing for a tab that is not
    modified.  [handleCloseTab] of a modified tab shows what the guard
    shows and closes the tab exactly when the guard answered [true]; when
    it answered [false] the state (registry and active tab) is the one
    before. *)
Theorem handleCloseTab_honours_guard (now : Z) (st : State) :
  (forall tabId tab,
     guardedTab tabId st = Some tab -> isModified tab = false ->
     checkUnsavedChanges confirm tabId st = (true, [])) /\
  (forall tabId tab,
     findTab tabId (tabs st) = Some tab -> isModified tab = true ->
     let guard := checkUnsavedChanges confirm (Some tabId) st in
     snd (handleCloseTab confirm now tabId st) = snd guard /\
     (fst guard = true ->
        fst (handleCloseTab confirm now tabId st) = closeTab now tabId st) /\
     (fst guard = false ->
        fst (handleCloseTab confirm now tabId st) = st)).
Proof.
  split.
  - intros tabId tab. apply checkUnsavedChanges_unmodified.
  - intros tabId tab Hfind Hdirty guard.
    unfold handleCloseTab. rewrite Hfind, Hdirty. fold guard.
    destruct guard as [proceed shown]. simpl.
    destruct proceed; simpl; repeat split; intros; congruence.
Qed.

(** With a modified tab in the registry, the close request is vetoed, the
    guard of the active tab is consulted, and the window closes exactly
    when that guard answered [true]. *)
Theorem handleWindowClose_honours_guard (st : State) :
  existsb isModified (tabs st) = true ->
  let guard := checkUnsavedChanges confirm None st in
  handleWindowClose confirm st
    = ({| prevented := true; closeCalled := fst guard |}, snd guard) /\
  windowCloses (fst (handleWindowClose confirm st)) = fst guard.
Proof.
  intros Hdirty guard. unfold handleWindowClose. rewrite Hdirty. fold guard.
  destruct guard as [proceed shown]. simpl. split; reflexivity.
Qed.

End GuardFacts.

Section GuardExamples.

Import App Scenario.

Lemma handleCloseTab_honours_guard_witness :
  checkUnsavedChanges decline None openedDocument = (true, []) /\
  fst (handleCloseTab decline closingTime "tab-2" editedInFront) = editedInFront /\
  fst (handleCloseTab accept closingTime "tab-2" editedInFront)
    = {| tabs := [openedTab]; activeTabId := "tab-1" |}.
Proof.
  split; [|split].
  - apply (proj1 (handleCloseTab_honours_guard decline closingTime openedDocument)
             None openedTab); reflexivity.
  - destruct (proj2 (handleCloseTab_honours_guard decline closingTime editedInFront)
                "tab-2" editedTab eq_refl eq_refl) as [_ [_ Hkept]].
    apply Hkept. reflexivity.
  - destruct (proj2 (handleCloseTab_honours_guard accept closingTime editedInFront)
                "tab-2" editedTab eq_refl eq_refl) as [_ [Hclosed _]].
    rewrite Hclosed; reflexivity.
Defined.

Lemma handleWindowClose_honours_guard_witness :
  windowCloses (fst (handleWindowClose decline editedInFront)) = false /\
  windowCloses (fst (handleWindowClose accept editedInFront)) = true.
Proof.
  split.
  - etransitivity.
    + apply (handleWindowClose_honours_guard decline editedInFront). reflexivity.
    + reflexivity.
  - etransitivity.
    + apply (handleWindowClose_honours_guard accept editedInFront). reflexivity.
    + reflexivity.
Defined.

(** The guard of a close request looks at the active tab: with the
    modified tab in the background it shows nothing and the window
    closes. *)
Lemma handleWindowClose_background_edit (confirm : string -> option bool) :
  handleWindowClose confirm editedInBackground
  = ({| prevented := true; closeCalled := true |}, []).
Proof. reflexivity. Qed.

(** In general: when the active tab is not modified and another tab is,
    the window closes and nothing is asked, whoever the user is. *)
Lemma handleWindowClose_unasked (confirm : string -> option bool)
    (st : State) (tab : Tab) :
  activeTab st = Some tab -> isModified tab = false ->
  existsb isModified (tabs st) = true ->
  handleWindowClose confirm st
  = ({| prevented := true; closeCalled := true |}, []).
Proof.
  intros Hactive Hclean Hdirty. unfold handleWindowClose. rewrite Hdirty.
  unfold checkUnsavedChanges, guardedTab. now rewrite Hactive, Hclean.
Qed.

(** C5 (the code departs from the claim).  The tab "tab-2" is modified and
    sits in the background of the active tab, which is not modified.  The
    handler finds a modified tab and vetoes the request, then consults the
    guard without a tab id, that is for the active tab: it answers [true]
    and asks nothing, and the handler closes the window.  So for every
    user the window closes over the unsaved changes and no question is
    shown, whereas the guard of the modified tab itself asks one. *)
Theorem handleWindowClose_closes_over_background_edit :
  existsb isModified (tabs editedInBackground) = true /\
  findTab "tab-2" (tabs editedInBackground) = Some editedTab /\
  isModified editedTab = true /\
  forall confirm : string -> option bool,
    handleWindowClose confirm editedInBackground
    = ({| prevented := true; closeCalled := true |}, []) /\
    windowCloses (fst (handleWindowClose confirm editedInBackground)) = true /\
    snd (checkUnsavedChanges confirm (Some "tab-2") editedInBackground)
    = ["Discard unsaved changes to Untitled?"].
Proof.
  split; [reflexivity|]. split; [reflexivity|]. split; [reflexivity|].
  intros confirm. split; [reflexivity|]. split; [reflexivity|].
  unfold checkUnsavedChanges. cbn.
  destruct (confirm _); reflexivity.
Qed.

End GuardExamples.

(** ** Content-changed notifications *)

Section OnUpdateFacts.

Import App Scenario.

Lemma findTab_updateTabContent key tabId c m st :
  findTab key (tabs (updateTabContent tabId c m st))
  = option_map (fun t => if String.eqb (id t) tabId
                         then {| id := id t; title := title t;
                                 filePath := filePath t;
                                 content := c; isModified := m |}
                         else t)
               (findTab key (tabs st)).
Proof.
  unfold updateTabContent, tabs at 1.
  apply (findTab_map_keeping_id
           (fun t => {| id := id t; title := title t; filePath := filePath t;
                        content := c; isModified := m |})).
  reflexivity.
Qed.

Lemma activeTab_registered st tab :
  findTab (activeTabId st) (tabs st) = Some tab -> activeTab st = Some tab.
Proof.
  intros H. unfold activeTab. now rewrite H.
Qed.

Lemma onUpdate_empty_not_flagged st tab :
  findTab (activeTabId st) (tabs st) = Some tab ->
  exists st' tab',
    onUpdate emptyDocument st = Some st' /\
    activeTab st' = Some tab' /\
    id tab' = activeTabId st /\ isModified tab' = false.
Proof.
  intros Hfind.
  destruct (findTab_id _ _ _ Hfind) as [Hid _].
  exists (updateTabContent (activeTabId st) emptyDocument false st).
  exists {| id := id tab; title := title tab; filePath := filePath tab;
            content := emptyDocument; isModified := false |}.
  split; [|split; [|split]].
  - unfold onUpdate. rewrite (activeTab_registered _ _ Hfind).
    now rewrite String.eqb_refl.
  - apply activeTab_registered.
    change (activeTabId (updateTabContent (activeTabId st) emptyDocument false st))
      with (activeTabId st).
    rewrite findTab_updateTabContent, Hfind.
    apply String.eqb_eq in Hid. cbn [option_map]. now rewrite Hid.
  - exact Hid.
  - reflexivity.
Qed.

(** C4 as the claim words it fails: the text of an opened document is
    deleted, the editor reports the empty document, and the tab is not
    flagged, whereas the worded rule flags it (the new content is not the
    content the tab was bound to). *)
Lemma onUpdate_emptied_document_counterexample :
  ~ (forall st' tab',
       onUpdate emptyDocument openedDocument = Some st' ->
       activeTab st' = Some tab' ->
       isModified tab' = specIsModified emptyDocument (content openedTab)).
Proof.
  intros H.
  specialize (H _ _ eq_refl eq_refl). vm_compute in H. discriminate.
Qed.

(** C4, amended.  A notification writes the new content into the tab
    [activeTabId] names, with the flag off when the new content is the
    empty document or is the content the tab held, and on otherwise.  A
    tab that was just created is therefore not flagged by the notification
    of the empty document. *)
Theorem onUpdate_isModified (newContent : string) (st : State) (tab : Tab) :
  findTab (activeTabId st) (tabs st) = Some tab ->
  let modified :=
    negb (String.eqb newContent emptyDocument
          || String.eqb newContent (content tab)) in
  onUpdate newContent st
    = Some (updateTabContent (activeTabId st) newContent modified st) /\
  (exists st' tab',
     onUpdate newContent st = Some st' /\
     findTab (activeTabId st') (tabs st') = Some tab' /\
     id tab' = id tab /\ content tab' = newContent /\
     isModified tab' = modified) /\
  (forall now st0, exists st' tab',
     onUpdate emptyDocument (fst (createNewTab now st0)) = Some st' /\
     activeTab st' = Some tab' /\
     id tab' = tabIdAt now /\ isModified tab' = false).
Proof.
  intros Hfind modified.
  assert (Hrun : onUpdate newContent st
                 = Some (updateTabContent (activeTabId st) newContent modified st)).
  { unfold onUpdate. rewrite (activeTab_registered _ _ Hfind).
    unfold modified. now rewrite negb_orb. }
  split; [exact Hrun|]. split.
  - destruct (findTab_id _ _ _ Hfind) as [Hid _]. apply String.eqb_eq in Hid.
    eexists. eexists. split; [exact Hrun|]. split.
    + change (activeTabId (updateTabContent (activeTabId st) newContent modified st))
        with (activeTabId st).
      rewrite findTab_updateTabContent, Hfind. simpl. rewrite Hid. reflexivity.
    + repeat split.
  - intros now st0.
    destruct (createNewTab_invariant now st0) as [_ Hreg].
    apply findTab_registered in Hreg. destruct Hreg as [t Ht].
    exact (onUpdate_empty_not_flagged _ _ Ht).
Qed.

Lemma onUpdate_isModified_witness :
  onUpdate "<p>abc</p>" openedDocument = Some openedDocument /\
  onUpdate "<p>abcd</p>" openedDocument
  = Some {| tabs := [{| id := "tab-1"; title := "notes.md";
                        filePath := Some "C:\docs\notes.md";
                        content := "<p>abcd</p>"; isModified := true |}];
            activeTabId := "tab-1" |}.
Proof.
  split.
  - etransitivity.
    + apply (onUpdate_isModified "<p>abc</p>" openedDocument openedTab). reflexivity.
    + reflexivity.
  - etransitivity.
    + apply (onUpdate_isModified "<p>abcd</p>" openedDocument openedTab). reflexivity.
    + reflexivity.
Defined.

End OnUpdateFacts.

(** * Properties of the find/replace matcher *)

(** ** The escaped query is a literal pattern *)

Section EscapeFacts.

Import Regex FindReplace Literal.

(** The class of line 29 holds the syntax characters, all of them. *)
Lemma escapeClass_syntax (c : ascii) :
  matchAtoms false (source escapeClass) (String c EmptyString)
  = isSyntaxCharacter c.
Proof.
  destruct c as [[] [] [] [] [] [] [] []]; vm_compute; reflexivity.
Qed.

Lemma matchAtoms_one (ic : bool) (a : atom) (c : ascii) (s : string) :
  matchAtoms ic [a] (String c s) = matchAtoms ic [a] (String c EmptyString).
Proof.
  simpl. reflexivity.
Qed.

Lemma replaceScan_step (ic : bool) (atoms : list atom) (g : bool)
    (repl before : string) (live : bool) (c : ascii) (s' : string) :
  replaceScan ic atoms g repl before 0 live (String c s')
  = if live && matchAtoms ic atoms (String c s') then
      getSubstitution (Str.take (List.length atoms) (String c s')) before
        (Str.drop (List.length atoms) (String c s')) repl
      ++ match List.length atoms with
         | O => String c (replaceScan ic atoms g repl
                            (before ++ String c EmptyString) 0 g s')
         | S k => replaceScan ic atoms g repl
                    (before ++ String c EmptyString) k g s'
         end
    else String c (replaceScan ic atoms g repl
                     (before ++ String c EmptyString) 0 live s').
Proof. reflexivity. Qed.

Lemma escape_substitution (c : ascii) (before after : string) :
  getSubstitution (String c EmptyString) before after "\$&"
  = String "\" (String c EmptyString).
Proof. reflexivity. Qed.

Lemma escapeScan_escaped (before s : string) :
  replaceScan false (source escapeClass) true "\$&" before 0 true s = escaped s.
Proof.
  revert before. induction s as [|c s IH]; intros before; [reflexivity|].
  rewrite replaceScan_step.
  change (source escapeClass)
    with [OneOf (list_ascii_of_string ".*+?^${}()|[]\")].
  rewrite matchAtoms_one.
  change [OneOf (list_ascii_of_string ".*+?^${}()|[]\")]
    with (source escapeClass).
  rewrite escapeClass_syntax.
  cbn [andb escaped].
  destruct (isSyntaxCharacter c).
  - change (List.length (source escapeClass)) with 1%nat.
    cbn [Str.take Str.drop]. rewrite escape_substitution, IH. reflexivity.
  - now rewrite IH.
Qed.

(** [escapeRegex] puts a backslash before each syntax character and
    leaves the other characters as they are. *)
Lemma escapeRegex_escaped (s : string) : escapeRegex s = escaped s.
Proof.
  apply escapeScan_escaped.
Qed.

Lemma not_syntax_plain (c : ascii) :
  isSyntaxCharacter c = false ->
  Ascii.eqb c "\" = false /\ Ascii.eqb c "." = false.
Proof.
  unfold isSyntaxCharacter, syntaxCharacters. cbn [list_ascii_of_string Str.mem].
  intros H. repeat (apply orb_false_iff in H; destruct H as [? H]).
  split; assumption.
Qed.

(** The pattern of an escaped text is made of literal atoms only: the
    characters of the text, in order. *)
Lemma parsePattern_escaped (q : string) :
  parsePattern (escaped q) = Some (literals q).
Proof.
  unfold literals. induction q as [|c q IH]; [reflexivity|].
  cbn [escaped]. destruct (isSyntaxCharacter c) eqn:E.
  - cbn [parsePattern]. rewrite Ascii.eqb_refl, E, IH. reflexivity.
  - destruct (not_syntax_plain c E) as [Hb Hd].
    cbn [parsePattern]. rewrite Hb, Hd, E, IH. reflexivity.
Qed.

Lemma newRegExp_escapeRegex (q : string) (cs : bool) :
  newRegExp (escapeRegex q) (if cs then "g" else "gi")
  = Some {| source := literals q; global := true; ignoreCase := negb cs |} /\
  newRegExp (escapeRegex q) (if cs then "" else "i")
  = Some {| source := literals q; global := false; ignoreCase := negb cs |}.
Proof.
  unfold newRegExp. rewrite escapeRegex_escaped, parsePattern_escaped.
  destruct cs; split; reflexivity.
Qed.

Lemma literals_length (q : string) :
  List.length (literals q) = String.length q.
Proof.
  unfold literals. rewrite length_map.
  induction q as [|c q IH]; simpl; congruence.
Qed.

Lemma matchAtoms_literals (ic : bool) (q s : string) :
  matchAtoms ic (literals q) s = occursAt ic q s.
Proof.
  unfold literals. revert s. induction q as [|c q IH]; intros s.
  - destruct s; reflexivity.
  - destruct s as [|d s]; [reflexivity|].
    cbn [list_ascii_of_string map matchAtoms occursAt atomMatches].
    now rewrite IH.
Qed.

End EscapeFacts.

(** ** Counting *)

Section FindFacts.

Import Regex FindReplace Literal Scenario.

Lemma occursAt_nonempty_end (ic : bool) (q : string) :
  q <> EmptyString -> occursAt ic q EmptyString = false.
Proof.
  destruct q; [congruence | reflexivity].
Qed.

(** The global search finds as many matches as there are occurrences. *)
Lemma scanFrom_count (ic : bool) (q : string) (pos skip : nat) (s : string) :
  q <> EmptyString ->
  List.length (scanFrom ic (literals q) pos skip s) = countFrom ic q skip s.
Proof.
  intros Hq. revert pos skip. induction s as [|c s IH]; intros pos skip.
  - cbn [scanFrom countFrom].
    rewrite matchAtoms_literals, occursAt_nonempty_end by assumption.
    now rewrite andb_false_r.
  - cbn [scanFrom countFrom]. destruct skip as [|k]; [|apply IH].
    rewrite matchAtoms_literals, literals_length.
    destruct (occursAt ic q (String c s)); cbn [List.length]; now rewrite IH.
Qed.

Lemma stringMatch_count (ic : bool) (q s : string) :
  q <> EmptyString ->
  match stringMatch {| source := literals q; global := true; ignoreCase := ic |} s with
  | Some matches => List.length matches = countOccurrences ic q s
                    /\ countOccurrences ic q s <> 0%nat
  | None => countOccurrences ic q s = 0%nat
  end.
Proof.
  intros Hq. unfold stringMatch, countOccurrences. cbn [source global ignoreCase].
  rewrite <- (scanFrom_count ic q 0 0 s Hq).
  destruct (scanFrom ic (literals q) 0 0 s) as [|p ps]; [reflexivity|].
  rewrite length_map. split; [reflexivity | discriminate].
Qed.

(** The count is 0 exactly when the query occurs at no place of the
    text. *)
Lemma countFrom_zero (ic : bool) (q : string) (skip : nat) (s : string) :
  countFrom ic q skip s = 0%nat <->
  (forall i, (skip <= i < String.length s)%nat ->
             occursAt ic q (Str.drop i s) = false).
Proof.
  revert skip. induction s as [|c s IH]; intros skip.
  - cbn [countFrom String.length]. split; [intros _ i Hi; lia | reflexivity].
  - cbn [countFrom String.length]. destruct skip as [|k].
    + destruct (occursAt ic q (String c s)) eqn:E.
      * split; [discriminate|]. intros H.
        specialize (H 0%nat ltac:(lia)). cbn [Str.drop] in H. congruence.
      * rewrite IH. split.
        -- intros H [|i] Hi; [exact E|]. cbn [Str.drop]. apply H. lia.
        -- intros H i Hi. apply (H (S i)). lia.
    + rewrite IH. split.
      * intros H [|i] Hi; [lia|]. cbn [Str.drop]. apply H. lia.
      * intros H i Hi. apply (H (S i)). lia.
Qed.

Lemma countOccurrences_zero (ic : bool) (q s : string) :
  countOccurrences ic q s = 0%nat <->
  (forall i, (i < String.length s)%nat ->
             occursAt ic q (Str.drop i s) = false).
Proof.
  unfold countOccurrences. rewrite countFrom_zero. split.
  - intros H i Hi. apply H. lia.
  - intros H i Hi. apply H. lia.
Qed.

(** C6 as the claim words it fails for the empty query: "cat" was searched
    for in "cat cat dog" and the find field is then cleared; [findNext]
    runs and the count on display is still 2. *)
Lemma findNext_empty_query_counterexample :
  findNext catDog = Some catSearched /\
  ~ (forall s', changeFindText "" catSearched = Some s' -> totalMatches s' = 0%nat).
Proof.
  split; [reflexivity|].
  intros H. specialize (H _ eq_refl). discriminate.
Qed.

(** C6, amended.  For a query that is not empty [findNext] sets the count
    to the number of occurrences of the query, read as plain text, in the
    editor's document, letter case apart unless [caseSensitive] is set, and
    the dialog opens with it unset; when there is no occurrence the count
    and the position are 0.  For the empty query [findNext] changes
    nothing. *)
Theorem findNext_counts_occurrences (s : Session) :
  let n := countOccurrences (negb (caseSensitive s)) (findText s) (html s) in
  (findText s <> EmptyString ->
     findNext s = Some (if (n =? 0)%nat
                        then setCurrentMatch 0 (setTotalMatches 0 s)
                        else setTotalMatches n s)) /\
  (findText s = EmptyString -> findNext s = Some s) /\
  (forall doc, caseSensitive (openDialog doc) = false).
Proof.
  intros n. split; [|split].
  - intros Hq. unfold findNext.
    destruct (String.eqb_spec (findText s) "") as [E|_]; [contradiction|].
    rewrite (proj1 (newRegExp_escapeRegex (findText s) (caseSensitive s))).
    pose proof (stringMatch_count (negb (caseSensitive s)) (findText s) (html s) Hq) as H.
    fold n in H.
    destruct (stringMatch _ (html s)) as [matches|].
    + destruct H as [Hlen Hpos]. rewrite Hlen.
      apply Nat.eqb_neq in Hpos. now rewrite Hpos.
    + now rewrite H.
  - intros Hq. unfold findNext. now rewrite Hq.
  - reflexivity.
Qed.

Lemma findNext_counts_occurrences_witness :
  findNext catDog = Some (setTotalMatches 2 catDog) /\
  findNext (dialogOver "cat cat dog" "bird" "") =
    Some (setCurrentMatch 0 (setTotalMatches 0 (dialogOver "cat cat dog" "bird" ""))) /\
  findNext (dialogOver "a.c abc A.C" "a.c" "") =
    Some (setTotalMatches 2 (dialogOver "a.c abc A.C" "a.c" "")) /\
  findNext (setFindText "" catSearched) = Some (setFindText "" catSearched).
Proof.
  split; [|split; [|split]].
  - etransitivity.
    + apply (proj1 (findNext_counts_occurrences catDog)). discriminate.
    + reflexivity.
  - etransitivity.
    + apply (proj1 (findNext_counts_occurrences (dialogOver "cat cat dog" "bird" ""))).
      discriminate.
    + reflexivity.
  - etransitivity.
    + apply (proj1 (findNext_counts_occurrences (dialogOver "a.c abc A.C" "a.c" ""))).
      discriminate.
    + reflexivity.
  - apply (proj1 (proj2 (findNext_counts_occurrences (setFindText "" catSearched)))).
    reflexivity.
Defined.

End FindFacts.

(** ** Replacing *)

Section ReplaceFacts.

Import Regex FindReplace Literal Scenario.

(** A replacement text without a dollar sign stands for itself. *)
Lemma getSubstitution_plain (matched before after r : string) :
  hasDollar r = false -> getSubstitution matched before after r = r.
Proof.
  induction r as [|c r IH]; [reflexivity|].
  cbn [hasDollar getSubstitution]. intros H.
  apply orb_false_iff in H. destruct H as [Hc Hr].
  rewrite Hc, IH by assumption. reflexivity.
Qed.

Lemma replaceScan_literal (ic g : bool) (q r before : string) (skip : nat)
    (live : bool) (s : string) :
  q <> EmptyString -> hasDollar r = false ->
  replaceScan ic (literals q) g r before skip live s
  = replaceFrom ic q r g skip live s.
Proof.
  intros Hq Hr. revert before skip live.
  induction s as [|c s IH]; intros before skip live.
  - cbn [replaceScan replaceFrom].
    rewrite matchAtoms_literals, occursAt_nonempty_end by assumption.
    now rewrite !andb_false_r.
  - destruct skip as [|k]; [|cbn [replaceScan replaceFrom]; apply IH].
    rewrite replaceScan_step. cbn [replaceFrom].
    rewrite matchAtoms_literals, literals_length.
    destruct (live && occursAt ic q (String c s)).
    + rewrite getSubstitution_plain by assumption.
      destruct q as [|a q]; [congruence|].
      cbn [String.length Nat.pred]. now rewrite IH.
    + now rewrite IH.
Qed.

Lemma stringReplace_literal (ic g : bool) (q r s : string) :
  q <> EmptyString -> hasDollar r = false ->
  stringReplace {| source := literals q; global := g; ignoreCase := ic |} s r
  = replaceFrom ic q r g 0 true s.
Proof.
  intros Hq Hr. unfold stringReplace. cbn [source global ignoreCase].
  now apply replaceScan_literal.
Qed.

Variable setContent : string -> string.


(** [replaceNext] does the same for the first occurrence, and counts
    anew. *)
Lemma replaceNext_replaces_first_occurrence (s : Session) :
  findText s <> EmptyString -> hasDollar (replaceText s) = false ->
  let newContent :=
    replaceFirst (negb (caseSensitive s)) (findText s) (replaceText s) (html s) in
  replaceNext setContent s
  = if String.eqb newContent (html s) then Some s
    else findNext (setHtml (setContent newContent) s).
Proof.
  intros Hq Hr newContent. unfold replaceNext.
  destruct (String.eqb_spec (findText s) "") as [E|_]; [contradiction|].
  rewrite (proj2 (newRegExp_escapeRegex (findText s) (caseSensitive s))).
  rewrite stringReplace_literal by assumption.
  fold (replaceFirst (negb (caseSensitive s)) (findText s) (replaceText s) (html s)).
  fold newContent.
  now destruct (String.eqb newContent (html s)).
Qed.

End ReplaceFacts.

Section ReplaceExamples.

Import Regex FindReplace Literal Scenario.



(** C9.  The replacement text goes to [String.replace] as it is, and a
    dollar pattern in it is expanded: with [$`] each match gives way to
    the text before it and with [$&] to itself, in [replaceAll] and in
    [replaceNext], where the literal replacement would put the two
    characters in. *)
Theorem replacement_dollar_patterns_expanded :
  (option_map html (replaceAll plainEditor (dialogOver "a cat" "cat" "$`"))
     = Some "a a " /\
   replaceEvery true "cat" "$`" "a cat" = "a $`") /\
  (option_map html (replaceNext plainEditor (dialogOver "a cat" "cat" "$`"))
     = Some "a a " /\
   replaceFirst true "cat" "$`" "a cat" = "a $`") /\
  (option_map html (replaceAll plainEditor (dialogOver "a cat" "cat" "$&"))
     = Some "a cat" /\
   option_map html (replaceNext plainEditor (dialogOver "a cat" "cat" "$&"))
     = Some "a cat" /\
   replaceEvery true "cat" "$&" "a cat" = "a $&") /\
  (exists s s',
     findText s <> EmptyString /\
     replaceAll plainEditor s = Some s' /\
     html s' <> replaceEvery (negb (caseSensitive s)) (findText s)
                  (replaceText s) (html s)) /\
  (exists s s',
     findText s <> EmptyString /\
     replaceNext plainEditor s = Some s' /\
     html s' <> replaceFirst (negb (caseSensitive s)) (findText s)
                  (replaceText s) (html s)).
Proof.
  split; [split; reflexivity|].
  split; [split; reflexivity|].
  split; [repeat split; reflexivity|].
  split.
  - exists (dialogOver "a cat" "cat" "$`"). eexists.
    split; [discriminate|]. split; [reflexivity|]. vm_compute. discriminate.
  - exists (dialogOver "a cat" "cat" "$`"). eexists.
    split; [discriminate|]. split; [reflexivity|]. vm_compute. discriminate.
Qed.

End ReplaceExamples.

(** * Properties of the recent-files list *)

Section RecentFacts.

Import Recent.

Variable setItem : list string -> bool.

Lemma without_In (p q : string) (l : list string) :
  In q (filter (fun f => negb (String.eqb f p)) l) <-> In q l /\ q <> p.
Proof.
  rewrite filter_In, negb_true_iff, String.eqb_neq. reflexivity.
Qed.

Lemma without_absent (p : string) (l : list string) :
  ~ In p l -> filter (fun f => negb (String.eqb f p)) l = l.
Proof.
  intros H. apply forallb_filter_id. apply forallb_forall.
  intros q Hq. apply negb_true_iff, String.eqb_neq. congruence.
Qed.

Lemma without_NoDup (p : string) (l : list string) :
  NoDup l -> NoDup (filter (fun f => negb (String.eqb f p)) l).
Proof.
  apply NoDup_filter.
Qed.

Lemma firstn_NoDup {A : Type} (n : nat) (l : list A) :
  NoDup l -> NoDup (firstn n l).
Proof.
  intros H. rewrite <- (firstn_skipn n l) in H.
  now apply NoDup_app_remove_r in H.
Qed.

Lemma updated_NoDup (p : string) (l : list string) :
  NoDup l ->
  NoDup (firstn 10 (p :: filter (fun f => negb (String.eqb f p)) l)).
Proof.
  intros H. apply firstn_NoDup. constructor.
  - rewrite without_In. tauto.
  - now apply without_NoDup.
Qed.

Lemma firstn_In {A : Type} (n : nat) (l : list A) (x : A) :
  In x (firstn n l) -> In x l.
Proof.
  intros H. rewrite <- (firstn_skipn n l). apply in_or_app. now left.
Qed.

Lemma firstn_without_firstn (q : string) (n : nat) (l : list string) :
  NoDup l ->
  firstn n (filter (fun f => negb (String.eqb f q)) (firstn (S n) l))
  = firstn n (filter (fun f => negb (String.eqb f q)) l).
Proof.
  intros Hnd. revert n. induction Hnd as [|a l Ha Hnd IH]; intros n.
  - reflexivity.
  - rewrite firstn_cons. cbn [filter].
    destruct (String.eqb_spec a q) as [->|Hne]; cbn [negb].
    + assert (Hq : ~ In q (firstn n l))
        by (intros H; apply firstn_In in H; contradiction).
      rewrite !without_absent by assumption.
      rewrite firstn_firstn. now rewrite Nat.min_id.
    + destruct n as [|m]; [reflexivity|].
      rewrite !firstn_cons. now rewrite IH.
Qed.

(** X1.  A list without duplicates and of at most 10 entries stays so
    under [addToRecentFiles] and [removeFromRecentFiles], whether the store
    takes the new list or not. *)
Theorem recent_files_bounded_distinct (p : string) (recent : list string) :
  NoDup recent -> (List.length recent <= 10)%nat ->
  (NoDup (addToRecentFiles setItem p recent) /\
   (List.length (addToRecentFiles setItem p recent) <= 10)%nat) /\
  (NoDup (removeFromRecentFiles setItem p recent) /\
   (List.length (removeFromRecentFiles setItem p recent) <= 10)%nat).
Proof.
  intros Hnd Hlen.
  unfold addToRecentFiles, removeFromRecentFiles, saveRecentFiles.
  split.
  - destruct (setItem _); [|now split]. split.
    + now apply updated_NoDup.
    + apply firstn_le_length.
  - destruct (setItem _); [|now split]. split.
    + now apply without_NoDup.
    + pose proof (filter_length_le (fun f => negb (String.eqb f p)) recent). lia.
Qed.

(** X2.  When the store takes the list, [addToRecentFiles] puts the path
    in front: a new path goes before the others, of which the first nine
    stay; a path that is in the list moves to the front and the others keep
    their order. *)
Theorem addToRecentFiles_front (p : string) (recent : list string) :
  (forall files, setItem files = true) ->
  (~ In p recent ->
     addToRecentFiles setItem p recent = p :: firstn 9 recent) /\
  (forall l1 l2, recent = (l1 ++ p :: l2)%list ->
     ~ In p l1 -> ~ In p l2 -> (List.length recent <= 10)%nat ->
     addToRecentFiles setItem p recent = p :: (l1 ++ l2)%list).
Proof.
  intros Hstore. unfold addToRecentFiles, saveRecentFiles.
  split.
  - intros Hnew. rewrite Hstore, without_absent by assumption. reflexivity.
  - intros l1 l2 -> H1 H2 Hlen. rewrite Hstore.
    rewrite filter_app. cbn [filter]. rewrite String.eqb_refl. cbn [negb].
    rewrite !without_absent by assumption.
    rewrite (firstn_cons 9). f_equal. apply firstn_all2.
    rewrite length_app in *. cbn [List.length] in Hlen. lia.
Qed.

(** X3.  When the store takes the list, [removeFromRecentFiles] leaves no
    entry equal to the path and keeps every other entry. *)
Theorem removeFromRecentFiles_removes (p : string) (recent : list string) :
  (forall files, setItem files = true) ->
  ~ In p (removeFromRecentFiles setItem p recent) /\
  (forall q, q <> p ->
     (In q (removeFromRecentFiles setItem p recent) <-> In q recent)) /\
  (~ In p recent -> removeFromRecentFiles setItem p recent = recent).
Proof.
  intros Hstore. unfold removeFromRecentFiles, saveRecentFiles.
  rewrite Hstore. split; [|split].
  - rewrite without_In. tauto.
  - intros q Hq. rewrite without_In. tauto.
  - apply without_absent.
Qed.

(** X4.  On a list without duplicates: adding a path, then another one,
    then the first again leaves the first in front of the second, each
    once, before the first eight of the other entries. *)
Theorem addToRecentFiles_alternating (p q : string) (recent : list string) :
  (forall files, setItem files = true) -> p <> q -> NoDup recent ->
  addToRecentFiles setItem p
    (addToRecentFiles setItem q (addToRecentFiles setItem p recent))
  = p :: q :: firstn 8
      (filter (fun f => negb (String.eqb f q))
         (filter (fun f => negb (String.eqb f p)) recent)).
Proof.
  intros Hstore Hpq Hnd. unfold addToRecentFiles, saveRecentFiles.
  rewrite !Hstore.
  assert (Epq : String.eqb p q = false) by now apply String.eqb_neq.
  assert (Eqp : String.eqb q p = false) by (apply String.eqb_neq; congruence).
  set (X := filter (fun f => negb (String.eqb f p)) recent).
  assert (HX : NoDup X) by now apply without_NoDup.
  assert (HpX : forall l, (forall x, In x l -> In x X) -> ~ In p l).
  { intros l Hl Hin. apply Hl in Hin. unfold X in Hin.
    apply without_In in Hin. tauto. }
  rewrite (firstn_cons 9 p X).
  cbn [filter]. rewrite Epq. cbn [negb].
  rewrite (firstn_cons 9 q), (firstn_cons 8 p).
  cbn [filter]. rewrite Eqp, String.eqb_refl. cbn [negb].
  rewrite (firstn_cons 9 p), (firstn_cons 8 q). do 2 f_equal.
  rewrite without_absent.
  - rewrite firstn_firstn. change (Nat.min 8 8) with 8%nat.
    now apply firstn_without_firstn.
  - apply HpX. intros x Hx.
    apply firstn_In in Hx. apply without_In in Hx. destruct Hx as [Hx _].
    now apply firstn_In in Hx.
Qed.

End RecentFacts.

Section RecentExamples.

Import Recent.

Lemma two_distinct_paths : NoDup ["b"; "a"].
Proof.
  constructor.
  - simpl. intros [H|[]]. discriminate.
  - constructor; [simpl; tauto | constructor].
Defined.

Lemma recent_files_bounded_distinct_witness :
  NoDup (addToRecentFiles storing "a" ["b"; "a"]) /\
  (List.length (addToRecentFiles storing "a" ["b"; "a"]) <= 10)%nat.
Proof.
  apply (recent_files_bounded_distinct storing "a" ["b"; "a"]).
  - exact two_distinct_paths.
  - simpl. lia.
Defined.

Lemma addToRecentFiles_front_witness :
  addToRecentFiles storing "c" ["b"; "a"] = ["c"; "b"; "a"] /\
  addToRecentFiles storing "a" ["b"; "a"] = ["a"; "b"].
Proof.
  split.
  - etransitivity.
    + apply (proj1 (addToRecentFiles_front storing "c" ["b"; "a"]
                      (fun _ => eq_refl))).
      simpl. intros [H|[H|[]]]; discriminate.
    + reflexivity.
  - apply (proj2 (addToRecentFiles_front storing "a" ["b"; "a"]
                    (fun _ => eq_refl)) ["b"] []).
    + reflexivity.
    + simpl. intros [H|[]]. discriminate.
    + simpl. tauto.
    + simpl. lia.
Defined.

Lemma removeFromRecentFiles_removes_witness :
  ~ In "a" (removeFromRecentFiles storing "a" ["b"; "a"]) /\
  removeFromRecentFiles storing "c" ["b"; "a"] = ["b"; "a"].
Proof.
  destruct (removeFromRecentFiles_removes storing "a" ["b"; "a"]
              (fun _ => eq_refl)) as [Hgone _].
  destruct (removeFromRecentFiles_removes storing "c" ["b"; "a"]
              (fun _ => eq_refl)) as [_ [_ Hsame]].
  split; [exact Hgone|].
  apply Hsame. simpl. intros [H|[H|[]]]; discriminate.
Defined.

Lemma addToRecentFiles_alternating_witness :
  addToRecentFiles storing "a"
    (addToRecentFiles storing "b" (addToRecentFiles storing "a" []))
  = ["a"; "b"].
Proof.
  etransitivity.
  - apply (addToRecentFiles_alternating storing "a" "b" []).
    + intros files. reflexivity.
    + discriminate.
    + constructor.
  - reflexivity.
Defined.

End RecentExamples.

(** * Properties of the file names *)

Section TextFacts.

Lemma append_assoc (a b c : string) : (a ++ b) ++ c = a ++ (b ++ c).
Proof.
  induction a as [|x a IH]; simpl; [reflexivity | now rewrite IH].
Qed.

Lemma append_nil_r (a : string) : a ++ "" = a.
Proof.
  induction a as [|x a IH]; simpl; [reflexivity | now rewrite IH].
Qed.

Lemma append_length (a b : string) :
  String.length (a ++ b) = (String.length a + String.length b)%nat.
Proof.
  induction a as [|x a IH]; simpl; [reflexivity | now rewrite IH].
Qed.

Lemma contains_append (c : ascii) (a b : string) :
  Text.contains c (a ++ b) = Text.contains c a || Text.contains c b.
Proof.
  induction a as [|x a IH]; simpl; [reflexivity|].
  now rewrite IH, orb_assoc.
Qed.

Lemma append_empty (a b : string) : a ++ b = "" -> a = "" /\ b = "".
Proof.
  destruct a; simpl; [tauto | discriminate].
Qed.

Lemma lastSegmentFrom_plain (sep : ascii) (acc s : string) :
  Text.contains sep s = false -> Str.lastSegmentFrom sep acc s = acc ++ s.
Proof.
  revert acc. induction s as [|c s IH]; intros acc H.
  - now rewrite append_nil_r.
  - cbn [Text.contains] in H. apply orb_false_iff in H. destruct H as [Hc Hs].
    cbn [Str.lastSegmentFrom]. rewrite Hc, IH by assumption.
    now rewrite append_assoc.
Qed.

Lemma lastSegmentFrom_after (sep : ascii) (acc a b : string) :
  Str.lastSegmentFrom sep acc (a ++ String sep b)
  = Str.lastSegmentFrom sep "" b.
Proof.
  revert acc. induction a as [|c a IH]; intros acc.
  - cbn [append Str.lastSegmentFrom]. now rewrite Ascii.eqb_refl.
  - cbn [append Str.lastSegmentFrom]. destruct (Ascii.eqb c sep); apply IH.
Qed.

Lemma lastSegmentFrom_no_sep (sep : ascii) (acc s : string) :
  Text.contains sep acc = false ->
  Text.contains sep (Str.lastSegmentFrom sep acc s) = false.
Proof.
  revert acc. induction s as [|c s IH]; intros acc Hacc; [exact Hacc|].
  cbn [Str.lastSegmentFrom]. destruct (Ascii.eqb c sep) eqn:E.
  - now apply IH.
  - apply IH. rewrite contains_append, Hacc. cbn [Text.contains].
    now rewrite E.
Qed.

(** A text that ends with another character than the separator has a last
    segment that is not empty. *)
Lemma lastSegmentFrom_ends_other (sep c : ascii) (acc s : string) :
  Ascii.eqb c sep = false -> Text.endsWith c s = true ->
  Str.lastSegmentFrom sep acc s <> "".
Proof.
  intros Hc. revert acc. induction s as [|d s IH]; intros acc H; [discriminate|].
  destruct s as [|e s].
  - cbn [Text.endsWith] in H. apply Ascii.eqb_eq in H. subst d.
    cbn [Str.lastSegmentFrom]. rewrite Hc.
    intros E. apply append_empty in E. destruct E as [_ E]. discriminate.
  - change (Text.endsWith c (String d (String e s)))
      with (Text.endsWith c (String e s)) in H.
    change (Str.lastSegmentFrom sep acc (String d (String e s)))
      with (if Ascii.eqb d sep
            then Str.lastSegmentFrom sep "" (String e s)
            else Str.lastSegmentFrom sep (acc ++ String d "") (String e s)).
    destruct (Ascii.eqb d sep); now apply IH.
Qed.

(** The last segment is empty only for the empty text and for a text that
    ends with the separator. *)
Lemma lastSegmentFrom_empty (sep : ascii) (acc s : string) :
  Str.lastSegmentFrom sep acc s = "" ->
  (acc = "" /\ s = "") \/ Text.endsWith sep s = true.
Proof.
  revert acc. induction s as [|d s IH]; intros acc H.
  - left. now split.
  - right. cbn [Str.lastSegmentFrom] in H.
    destruct (Ascii.eqb d sep) eqn:E.
    + destruct (IH _ H) as [[_ ->]|Hend].
      * cbn [Text.endsWith]. exact E.
      * destruct s; [discriminate | exact Hend].
    + destruct (IH _ H) as [[Hacc _]|Hend].
      * apply append_empty in Hacc. destruct Hacc as [_ Hacc]. discriminate.
      * destruct s; [discriminate | exact Hend].
Qed.

End TextFacts.

Section FileNameFacts.

Import Convert.

(** X5.  The name taken from a path is never empty, and neither is the
    status text of the toolbar. *)
Theorem fileNameOf_never_empty (path : string) (current : option string)
    (modified : bool) :
  fileNameOf path <> "" /\ statusText current modified <> "".
Proof.
  assert (Hname : forall p, p <> "" ->
            (if negb (String.eqb (Str.lastSegment "\" p) "")
             then Str.lastSegment "\" p
             else Str.lastSegment "/" p) <> "").
  { intros p Hp.
    destruct (String.eqb_spec (Str.lastSegment "\" p) "") as [E|E];
      cbn [negb]; [|exact E].
    apply lastSegmentFrom_empty in E. destruct E as [[_ E]|E]; [contradiction|].
    now apply (lastSegmentFrom_ends_other "/" "\"). }
  split.
  - unfold fileNameOf.
    destruct (String.eqb_spec (Str.lastSegment "\" path) "") as [E|E];
      cbn [negb]; [|exact E].
    destruct (String.eqb_spec (Str.lastSegment "/" path) "") as [F|F];
      cbn [negb]; [discriminate | exact F].
  - unfold statusText. intros H. apply append_empty in H. destruct H as [H _].
    destruct current as [p|]; [|discriminate].
    destruct (String.eqb_spec p "") as [E|E]; [discriminate|].
    now apply (Hname p E).
Qed.

(** X6.  For a path that ends with a backslash and a name, the name being
    without a backslash and not empty, the name is what is taken; the name
    taken holds no backslash unless the path ends with one. *)
Theorem fileNameOf_after_backslash (dir name : string) :
  name <> "" -> Text.contains "\" name = false ->
  fileNameOf (dir ++ String "\" name) = name /\
  (forall path, Text.endsWith "\" path = false ->
     Text.contains "\" (fileNameOf path) = false).
Proof.
  intros Hname Hplain. split.
  - unfold fileNameOf, Str.lastSegment.
    rewrite lastSegmentFrom_after, lastSegmentFrom_plain by assumption.
    cbn [append]. apply String.eqb_neq in Hname. now rewrite Hname.
  - intros path Hend. unfold fileNameOf.
    destruct (String.eqb_spec (Str.lastSegment "\" path) "") as [E|E];
      cbn [negb].
    + apply lastSegmentFrom_empty in E. destruct E as [[_ ->]|E].
      * reflexivity.
      * congruence.
    + now apply lastSegmentFrom_no_sep.
Qed.

(** X7.  A path without a backslash that is not empty is taken whole, its
    slashes included: the alternative that splits at [/] is not reached. *)
Theorem fileNameOf_without_backslash (path : string) :
  path <> "" -> Text.contains "\" path = false -> fileNameOf path = path.
Proof.
  intros Hpath Hplain. unfold fileNameOf, Str.lastSegment.
  rewrite lastSegmentFrom_plain by assumption. cbn [append].
  apply String.eqb_neq in Hpath. now rewrite Hpath.
Qed.

Lemma fileNameOf_after_backslash_witness :
  fileNameOf "C:\docs\notes.md" = "notes.md" /\
  Text.contains "\" (fileNameOf "C:\docs\notes.md") = false.
Proof.
  destruct (fileNameOf_after_backslash "C:\docs" "notes.md"
              ltac:(discriminate) eq_refl) as [Hname Hplain].
  split; [exact Hname | apply Hplain; reflexivity].
Defined.

Lemma fileNameOf_without_backslash_witness :
  fileNameOf "/home/ann/notes.md" = "/home/ann/notes.md".
Proof.
  apply (fileNameOf_without_backslash "/home/ann/notes.md").
  - discriminate.
  - reflexivity.
Defined.

End FileNameFacts.

(** * Properties of the conversions *)

Section ScanFacts.

Import Regex Literal.

Lemma charEq_exact (x c : ascii) : charEq false x c = Ascii.eqb c x.
Proof.
  unfold charEq, canonicalize. apply Ascii.eqb_sym.
Qed.

(** A pattern that starts with the character [x] does not match in a text
    without [x]: the text is copied. *)
Lemma replaceFrom_plain_prefix (x : ascii) (q' r : string) (every live : bool)
    (t u : string) :
  Text.contains x t = false ->
  replaceFrom false (String x q') r every 0 live (t ++ u)
  = t ++ replaceFrom false (String x q') r every 0 live u.
Proof.
  induction t as [|c t IH]; intros H; [reflexivity|].
  cbn [Text.contains] in H. apply orb_false_iff in H. destruct H as [Hc Ht].
  cbn [append replaceFrom occursAt]. rewrite charEq_exact, Hc.
  rewrite andb_false_l, andb_false_r. now rewrite IH.
Qed.

Lemma replaceFrom_plain (x : ascii) (q' r : string) (every live : bool)
    (t : string) :
  Text.contains x t = false ->
  replaceFrom false (String x q') r every 0 live t = t.
Proof.
  intros H. rewrite <- (append_nil_r t) at 1.
  rewrite replaceFrom_plain_prefix by assumption. cbn [replaceFrom].
  apply append_nil_r.
Qed.

Lemma replaceFrom_skip (ic : bool) (q r : string) (every live : bool)
    (w rest : string) :
  replaceFrom ic q r every (String.length w) live (w ++ rest)
  = replaceFrom ic q r every 0 live rest.
Proof.
  induction w as [|c w IH]; [reflexivity|]. cbn [String.length append replaceFrom].
  exact IH.
Qed.

Lemma occursAt_self (q rest : string) : occursAt false q (q ++ rest) = true.
Proof.
  induction q as [|c q IH]; [reflexivity|].
  cbn [append occursAt]. rewrite charEq_exact, Ascii.eqb_refl. exact IH.
Qed.

(** Where the text reads the pattern, the replacement is put in and the
    scan goes on behind it. *)
Lemma replaceFrom_at (x : ascii) (q' r rest : string) :
  replaceFrom false (String x q') r true 0 true (String x q' ++ rest)
  = r ++ replaceFrom false (String x q') r true 0 true rest.
Proof.
  change (String x q' ++ rest) with (String x (q' ++ rest)).
  cbn [replaceFrom]. 
  change (String x (q' ++ rest)) with (String x q' ++ rest).
  rewrite occursAt_self. cbn [andb String.length Nat.pred].
  now rewrite replaceFrom_skip.
Qed.

(** The same for the scans over atoms, with a text or with a callback as
    the replacement. *)
Lemma replaceScan_plain (x : ascii) (atoms : list atom) (g : bool)
    (repl before : string) (live : bool) (t : string) :
  Text.contains x t = false ->
  replaceScan false (Lit x :: atoms) g repl before 0 live t = t.
Proof.
  revert before. induction t as [|c t IH]; intros before H.
  - cbn [replaceScan matchAtoms]. now rewrite andb_false_r.
  - cbn [Text.contains] in H. apply orb_false_iff in H. destruct H as [Hc Ht].
    rewrite replaceScan_step. cbn [matchAtoms atomMatches].
    rewrite charEq_exact, Hc, andb_false_l, andb_false_r.
    now rewrite IH.
Qed.

Lemma replaceScanWith_plain (x : ascii) (atoms : list atom) (g : bool)
    (callback : string -> string) (live : bool) (t : string) :
  Text.contains x t = false ->
  Convert.replaceScanWith false (Lit x :: atoms) g callback 0 live t = t.
Proof.
  induction t as [|c t IH]; intros H.
  - cbn [Convert.replaceScanWith matchAtoms]. now rewrite andb_false_r.
  - cbn [Text.contains] in H. apply orb_false_iff in H. destruct H as [Hc Ht].
    cbn [Convert.replaceScanWith matchAtoms atomMatches].
    rewrite charEq_exact, Hc, andb_false_l, andb_false_r.
    now rewrite IH.
Qed.

(** A replacement by a literal pattern, seen as text. *)
Lemma plainGlobal_literal (q r s : string) :
  q <> EmptyString -> hasDollar r = false ->
  stringReplace (Convert.plainGlobal q) s r = replaceFrom false q r true 0 true s.
Proof.
  intros Hq Hr. unfold Convert.plainGlobal.
  fold (literals q). now apply stringReplace_literal.
Qed.

End ScanFacts.

Section ConvertFacts.

Import Regex Literal Convert.

Lemma markdownToHtml_lineBreaks (before s : string) :
  replaceScan false [Lit Text.LF] true "<br>" before 0 true s
  = Plain.lineBreaks s.
Proof.
  revert before. induction s as [|c s IH]; intros before; [reflexivity|].
  rewrite replaceScan_step. cbn [matchAtoms atomMatches andb Plain.lineBreaks].
  rewrite charEq_exact, andb_true_r.
  destruct (Ascii.eqb c Text.LF).
  - cbn [List.length]. rewrite getSubstitution_plain by reflexivity.
    now rewrite IH.
  - now rewrite IH.
Qed.

Lemma lineBreaks_append (a b : string) :
  Plain.lineBreaks (a ++ b) = Plain.lineBreaks a ++ Plain.lineBreaks b.
Proof.
  induction a as [|c a IH]; [reflexivity|].
  cbn [append Plain.lineBreaks]. destruct (Ascii.eqb c Text.LF); rewrite IH.
  - reflexivity.
  - reflexivity.
Qed.

Lemma lineBreaks_plain (s : string) :
  Text.contains Text.LF s = false -> Plain.lineBreaks s = s.
Proof.
  induction s as [|c s IH]; intros H; [reflexivity|].
  cbn [Text.contains] in H. apply orb_false_iff in H. destruct H as [Hc Hs].
  cbn [Plain.lineBreaks]. now rewrite Hc, IH.
Qed.

(** X8.  [markdownToHtml] leaves no line feed in its result, puts the four
    characters of [<br>] in place of each one, and works piece by piece:
    the result for a text in two parts is the two results joined. *)
Theorem markdownToHtml_line_feeds (a b : string) :
  Text.contains Text.LF (markdownToHtml a) = false /\
  String.length (markdownToHtml a)
    = (String.length a + 3 * Plain.count Text.LF a)%nat /\
  markdownToHtml (a ++ b) = markdownToHtml a ++ markdownToHtml b.
Proof.
  unfold markdownToHtml, stringReplace. cbn [source global ignoreCase].
  rewrite !markdownToHtml_lineBreaks. split; [|split].
  - induction a as [|c a IH]; [reflexivity|].
    cbn [Plain.lineBreaks]. destruct (Ascii.eqb c Text.LF) eqn:E.
    + cbn [append Text.contains]. rewrite IH. reflexivity.
    + cbn [Text.contains]. now rewrite E, IH.
  - induction a as [|c a IH]; [reflexivity|].
    cbn [Plain.lineBreaks Plain.count String.length].
    destruct (Ascii.eqb c Text.LF).
    + cbn [append String.length]. rewrite IH. lia.
    + cbn [String.length]. rewrite IH. lia.
  - apply lineBreaks_append.
Qed.




End ConvertFacts.

Section ParagraphFacts.

Import Regex Literal Convert.

Lemma contains_twoLines (t : string) :
  Text.contains "<" t = false -> Text.contains "<" (t ++ twoLines) = false.
Proof.
  intros H. rewrite contains_append, H. reflexivity.
Qed.

(** The stages behind the two for paragraphs leave a text without [<] as it
    is. *)
Lemma later_stages_plain (t : string) :
  Text.contains "<" t = false ->
  stringReplace headingClose
    (stringReplaceWith headingOpen
       (stringReplace (plainGlobal "</em>")
          (stringReplace (plainGlobal "<em>")
             (stringReplace (plainGlobal "</strong>")
                (stringReplace (plainGlobal "<strong>")
                   (stringReplace (plainGlobal "<br>") t oneLine)
                   "**") "**") "*") "*") headingMark) twoLines
  = t.
Proof.
  intros H. unfold stringReplace, stringReplaceWith,
    plainGlobal, headingOpen, headingClose.
  cbn [source global ignoreCase list_ascii_of_string map].
  do 5 (rewrite (replaceScan_plain "<" _ _ _ _ _ t) by assumption).
  rewrite (replaceScanWith_plain "<" _ _ _ _ t) by assumption.
  now rewrite (replaceScan_plain "<" _ _ _ _ _ t).
Qed.

Lemma paragraph_written (t : string) :
  Text.contains "<" t = false ->
  htmlToMarkdown ("<p>" ++ t ++ "</p>") = t ++ twoLines.
Proof.
  intros H.
  assert (S1 : stringReplace (plainGlobal "<p>") ("<p>" ++ t ++ "</p>") ""
               = t ++ "</p>").
  { rewrite plainGlobal_literal by (discriminate || reflexivity).
    rewrite (replaceFrom_at "<" "p>" "" (t ++ "</p>")). cbn [append].
    now rewrite replaceFrom_plain_prefix by assumption. }
  assert (S2 : stringReplace (plainGlobal "</p>") (t ++ "</p>") twoLines
               = t ++ twoLines).
  { rewrite plainGlobal_literal by (discriminate || reflexivity).
    now rewrite replaceFrom_plain_prefix by assumption. }
  unfold htmlToMarkdown. cbv zeta. rewrite S1, S2.
  apply later_stages_plain. now apply contains_twoLines.
Qed.

(** X10.  A paragraph of plain text (no [<], no line feed) is written as
    the text and two line feeds, and what is written is read back as the
    text and two [<br>]: the paragraph tags do not come back. *)
Theorem paragraph_saved_then_opened (t : string) :
  Text.contains "<" t = false -> Text.contains Text.LF t = false ->
  htmlToMarkdown ("<p>" ++ t ++ "</p>") = t ++ twoLines /\
  markdownToHtml (htmlToMarkdown ("<p>" ++ t ++ "</p>")) = t ++ "<br><br>".
Proof.
  intros Htag Hline. rewrite paragraph_written by assumption.
  split; [reflexivity|].
  unfold markdownToHtml, stringReplace. cbn [source global ignoreCase].
  rewrite markdownToHtml_lineBreaks, lineBreaks_append.
  now rewrite lineBreaks_plain.
Qed.

Lemma paragraph_saved_then_opened_witness :
  htmlToMarkdown "<p>Hello world</p>"
    = "Hello world" ++ twoLines /\
  markdownToHtml (htmlToMarkdown "<p>Hello world</p>") = "Hello world<br><br>".
Proof.
  apply (paragraph_saved_then_opened "Hello world"); reflexivity.
Defined.

End ParagraphFacts.

Section HeadingFacts.

Import Regex Literal Convert.

Lemma replaceFrom_foreign_tag (x y z : ascii) (q'' r : string)
    (every live : bool) (P rest : string) :
  Ascii.eqb z y = false -> Text.contains x (String z P) = false ->
  replaceFrom false (String x (String y q'')) r every 0 live
    (String x (String z P ++ rest))
  = String x (String z P
              ++ replaceFrom false (String x (String y q'')) r every 0 live rest).
Proof.
  intros Hzy Hplain.
  cbn [replaceFrom]. cbn [append occursAt].
  rewrite (charEq_exact y z), Hzy, andb_false_l, !andb_false_r.
  f_equal.
  exact (replaceFrom_plain_prefix x (String y q'') r every live
           (String z P) rest Hplain).
Qed.

(** A stage whose pattern is another tag leaves the heading as it is. *)
Lemma plain_stage_foreign (y : ascii) (q'' r P rest : string) :
  Ascii.eqb "h" y = false -> hasDollar r = false ->
  Text.contains "<" (String "h" P) = false ->
  replaceFrom false (String "<" (String y q'')) r true 0 true rest = rest ->
  stringReplace (plainGlobal (String "<" (String y q'')))
    (String "<" (String "h" P ++ rest)) r
  = String "<" (String "h" P ++ rest).
Proof.
  intros Hy Hr HP Hrest.
  rewrite plainGlobal_literal by (discriminate || assumption).
  rewrite replaceFrom_foreign_tag by assumption. now rewrite Hrest.
Qed.

Lemma replaceScanWith_plain_prefix (x : ascii) (atoms : list atom) (g : bool)
    (callback : string -> string) (live : bool) (t u : string) :
  Text.contains x t = false ->
  replaceScanWith false (Lit x :: atoms) g callback 0 live (t ++ u)
  = t ++ replaceScanWith false (Lit x :: atoms) g callback 0 live u.
Proof.
  induction t as [|c t IH]; intros H; [reflexivity|].
  cbn [Text.contains] in H. apply orb_false_iff in H. destruct H as [Hc Ht].
  cbn [append replaceScanWith matchAtoms atomMatches].
  rewrite charEq_exact, Hc, andb_false_l, andb_false_r.
  now rewrite IH.
Qed.

Lemma replaceScan_plain_prefix (x : ascii) (atoms : list atom) (g : bool)
    (repl before : string) (live : bool) (t u : string) :
  Text.contains x t = false ->
  replaceScan false (Lit x :: atoms) g repl before 0 live (t ++ u)
  = t ++ replaceScan false (Lit x :: atoms) g repl (before ++ t) 0 live u.
Proof.
  revert before. induction t as [|c t IH]; intros before H.
  - cbn [append]. now rewrite append_nil_r.
  - cbn [Text.contains] in H. apply orb_false_iff in H. destruct H as [Hc Ht].
    cbn [append]. rewrite replaceScan_step. cbn [matchAtoms atomMatches].
    rewrite charEq_exact, Hc, andb_false_l, andb_false_r.
    rewrite IH by assumption. now rewrite append_assoc.
Qed.

Lemma heading_written (n : nat) (t : string) :
  (1 <= n <= 6)%nat -> Text.contains "<" t = false ->
  htmlToMarkdown
    (String "<" (String "h" (String (Heading.digit n) (String ">" t))
                 ++ Heading.closing n))
  = Text.repeat "#" n ++ " " ++ t ++ twoLines.
Proof.
  intros Hn Ht.
  assert (Hcases : (n = 1 \/ n = 2 \/ n = 3 \/ n = 4 \/ n = 5 \/ n = 6)%nat)
    by lia.
  unfold htmlToMarkdown. cbv zeta.
  destruct Hcases as [->|[->|[->|[->|[->| ->]]]]];
    (rewrite !plain_stage_foreign
       by first [ reflexivity | exact Ht
                | cbn [Text.contains Heading.digit]; rewrite Ht; reflexivity ]);
    unfold stringReplaceWith, stringReplace, headingOpen, headingClose;
    cbn [source global ignoreCase];
    match goal with
    | |- replaceScan _ _ _ _ _ _ _
           (replaceScanWith _ _ _ _ _ _
              (String _ (String _ (String ?d (String _ t)) ++ ?cl))) = _ =>
        change (replaceScanWith false
                  [Lit "<"; Lit "h"; OneOf digits1to6; Lit ">"] true
                  headingMark 0 true
                  (String "<" (String "h" (String d (String ">" t)) ++ cl)))
          with (headingMark (String "<" (String "h" (String d ">")))
                ++ replaceScanWith false
                     [Lit "<"; Lit "h"; OneOf digits1to6; Lit ">"] true
                     headingMark 0 true (t ++ cl))
    end;
    rewrite replaceScanWith_plain_prefix by exact Ht;
    match goal with
    | |- context [replaceScanWith _ _ _ _ _ _ ?cl] =>
        change (replaceScanWith false
                  [Lit "<"; Lit "h"; OneOf digits1to6; Lit ">"] true
                  headingMark 0 true cl) with cl
    end;
    match goal with
    | |- context [headingMark ?m] =>
        let v := eval vm_compute in (headingMark m) in
        change (headingMark m) with v
    end;
    match goal with
    | |- replaceScan _ _ _ _ _ _ _ (?mark ++ t ++ ?cl) = _ =>
        rewrite <- (append_assoc mark t cl);
        rewrite (replaceScan_plain_prefix "<" _ _ _ _ _ (mark ++ t) cl)
          by (rewrite contains_append, Ht; reflexivity)
    end;
    rewrite append_assoc; reflexivity.
Qed.

(** X11.  A heading of level 1 to 6 around plain text is written as that
    many [#], a space, the text and two line feeds. *)
Theorem heading_written_as_marks (n : nat) (t : string) :
  (1 <= n <= 6)%nat -> Text.contains "<" t = false ->
  htmlToMarkdown (Heading.opening n ++ t ++ Heading.closing n)
  = Text.repeat "#" n ++ " " ++ t ++ twoLines.
Proof.
  intros Hn Ht. exact (heading_written n t Hn Ht).
Qed.

Lemma heading_written_as_marks_witness :
  htmlToMarkdown "<h3>Plan</h3>" = "### Plan" ++ twoLines.
Proof.
  apply (heading_written_as_marks 3 "Plan"); [lia | reflexivity].
Defined.

End HeadingFacts.

(** * Properties of the file handlers *)

Section FileHandlerFacts.

Import App Recent Convert Files.

Variable h : Host.

Lemma findTab_updateTabFile key tabId path t m st :
  findTab key (tabs (updateTabFile tabId path t m st))
  = option_map (fun tab => if String.eqb (id tab) tabId
                           then {| id := id tab; title := t;
                                   filePath := path;
                                   content := content tab; isModified := m |}
                           else tab)
               (findTab key (tabs st)).
Proof.
  unfold updateTabFile, tabs at 1.
  apply (findTab_map_keeping_id
           (fun tab => {| id := id tab; title := t; filePath := path;
                          content := content tab; isModified := m |})).
  reflexivity.
Qed.

Lemma bindActive_shape path s :
  map id (tabs (registry (bindActive h path s))) = map id (tabs (registry s)) /\
  activeTabId (registry (bindActive h path s)) = activeTabId (registry s).
Proof.
  unfold bindActive. cbn [registry]. split; [apply updateTabFile_ids | reflexivity].
Qed.

Lemma loadActive_shape path text s :
  map id (tabs (registry (loadActive h path text s))) = map id (tabs (registry s)) /\
  activeTabId (registry (loadActive h path text s)) = activeTabId (registry s).
Proof.
  unfold loadActive. cbn [registry]. split; [|reflexivity].
  now rewrite updateTabContent_ids, updateTabFile_ids.
Qed.

Lemma shape_eq s s' :
  map id (tabs (registry s')) = map id (tabs (registry s)) /\
  activeTabId (registry s') = activeTabId (registry s) ->
  shape s' = shape s.
Proof.
  intros [H1 H2]. unfold shape. now rewrite H1, H2.
Qed.

(** X12.  No file handler adds, removes, reorders or renumbers a tab, or
    changes [activeTabId], whatever the host answers. *)
Theorem file_handlers_keep_shape (editor : option string) (path : string)
    (s : Session) :
  shape (snd (fst (handleSaveFile h editor s))) = shape s /\
  shape (fst (handleSaveAsFile h editor s)) = shape s /\
  shape (fst (handleOpenFile h editor s)) = shape s /\
  shape (fst (handleOpenRecentFile h editor path s)) = shape s /\
  shape (fst (openMostRecent h editor s)) = shape s.
Proof.
  assert (Hrecent : forall p,
            shape (fst (handleOpenRecentFile h editor p s)) = shape s).
  { intros p. unfold handleOpenRecentFile. destruct editor; [|reflexivity].
    destruct (checkUnsavedChanges _ _ _) as [proceed shown].
    destruct proceed; cbn [negb]; [|reflexivity].
    destruct (readTextFile h p); cbn [fst]; [|reflexivity].
    apply shape_eq, loadActive_shape. }
  split; [|split; [|split; [|split]]].
  - unfold handleSaveFile. destruct editor; [|reflexivity].
    destruct (activeTab (registry s)) as [tab|]; [|reflexivity].
    destruct (match filePath tab with
              | Some p => if String.eqb p "" then None else Some p
              | None => None
              end) as [p|].
    + cbn [fst snd]. destruct (writeTextFile h p _); cbn [fst snd]; [|reflexivity].
      apply shape_eq, bindActive_shape.
    + destruct (chosen (save h)) as [p|]; [|reflexivity].
      destruct (writeTextFile h p _); cbn [fst snd]; [|reflexivity].
      apply shape_eq, bindActive_shape.
  - unfold handleSaveAsFile. destruct editor; [|reflexivity].
    destruct (chosen (save h)) as [p|]; [|reflexivity].
    destruct (writeTextFile h p _); cbn [fst]; [|reflexivity].
    apply shape_eq, bindActive_shape.
  - unfold handleOpenFile. destruct editor; [|reflexivity].
    destruct (checkUnsavedChanges _ _ _) as [proceed shown].
    destruct proceed; cbn [negb]; [|reflexivity].
    destruct (chosen (open h)) as [p|]; [|reflexivity].
    destruct (readTextFile h p); cbn [fst]; [|reflexivity].
    apply shape_eq, loadActive_shape.
  - apply Hrecent.
  - unfold openMostRecent. destruct (recentFiles s); [reflexivity | apply Hrecent].
Qed.

End FileHandlerFacts.

Section SaveFacts.

Import App Recent Convert Files.

Variable h : Host.

(** The tab [activeTabId] names after a save or an open bound it. *)
Lemma bindActive_tab path s tab :
  findTab (activeTabId (registry s)) (tabs (registry s)) = Some tab ->
  findTab (activeTabId (registry (bindActive h path s)))
          (tabs (registry (bindActive h path s)))
  = Some {| id := id tab; title := fileNameOf path; filePath := Some path;
            content := content tab; isModified := false |}.
Proof.
  intros Hfind. unfold bindActive. cbn [registry].
  change (activeTabId (updateTabFile _ _ _ _ (registry s)))
    with (activeTabId (registry s)).
  rewrite findTab_updateTabFile, Hfind. cbn [option_map].
  destruct (findTab_id _ _ _ Hfind) as [Hid _].
  apply String.eqb_eq in Hid. now rewrite Hid.
Qed.

(** X13.  Saving writes the converted HTML of the editor and binds the
    active tab: when the tab has a path, no dialog is shown and the file
    at that path is written; when it has none, the file picked in the
    dialog is written.  After a successful write the recent-files list
    with the path in front is handed to the store, the handler returns
    [true], and the tab has the path, the file's name as title and no
    modified flag, its content being as before. *)
Theorem handleSaveFile_binds (htmlContent path : string) (s : Session)
    (tab : Tab) :
  findTab (activeTabId (registry s)) (tabs (registry s)) = Some tab ->
  writeTextFile h path (htmlToMarkdown htmlContent) = true ->
  path <> "" ->
  (filePath tab = Some path ->
     handleSaveFile h (Some htmlContent) s
     = (true, bindActive h path s,
        [WriteFile path (htmlToMarkdown htmlContent);
         SetItem (listAfterAdd path (recentFiles s))])) /\
  (filePath tab = None -> save h = Some (Some path) ->
     handleSaveFile h (Some htmlContent) s
     = (true, bindActive h path s,
        [SaveDialog; WriteFile path (htmlToMarkdown htmlContent);
         SetItem (listAfterAdd path (recentFiles s))])) /\
  findTab (activeTabId (registry (bindActive h path s)))
          (tabs (registry (bindActive h path s)))
  = Some {| id := id tab; title := fileNameOf path; filePath := Some path;
            content := content tab; isModified := false |} /\
  recentFiles (bindActive h path s)
  = (if setItem h (listAfterAdd path (recentFiles s))
     then listAfterAdd path (recentFiles s) else recentFiles s).
Proof.
  intros Hfind Hwrite Hpath.
  apply String.eqb_neq in Hpath.
  split; [|split; [|split]].
  - intros Hbound. unfold handleSaveFile.
    rewrite (activeTab_registered _ _ Hfind), Hbound, Hpath.
    cbn [app]. now rewrite Hwrite.
  - intros Hfree Hpick. unfold handleSaveFile, chosen.
    rewrite (activeTab_registered _ _ Hfind), Hfree, Hpick, Hpath.
    cbn [app]. now rewrite Hwrite.
  - now apply bindActive_tab.
  - reflexivity.
Qed.

(** X14.  [handleSaveFile] returns [true] only after a write that
    succeeded, which is followed by the store of the recent-files list and
    by nothing else; when it returns [false] the session is as before and
    nothing was handed to the store. *)
Theorem handleSaveFile_result (editor : option string) (s : Session) :
  (fst (fst (handleSaveFile h editor s)) = false ->
     snd (fst (handleSaveFile h editor s)) = s /\
     forall files, ~ In (SetItem files) (snd (handleSaveFile h editor s))) /\
  (fst (fst (handleSaveFile h editor s)) = true ->
     exists htmlContent path before,
       editor = Some htmlContent /\
       snd (handleSaveFile h editor s)
       = (before ++ [WriteFile path (htmlToMarkdown htmlContent);
                     SetItem (listAfterAdd path (recentFiles s))])%list /\
       (before = [] \/ before = [SaveDialog]) /\
       writeTextFile h path (htmlToMarkdown htmlContent) = true /\
       snd (fst (handleSaveFile h editor s)) = bindActive h path s).
Proof.
  assert (Hquiet : forall files, ~ In (SetItem files) []) by (intros files []).
  assert (Hdialog : forall files, ~ In (SetItem files) [SaveDialog])
    by (intros files [H|[]]; discriminate).
  unfold handleSaveFile.
  destruct editor as [htmlContent|];
    [|split; [intros _; split; [reflexivity | exact Hquiet] | discriminate]].
  destruct (activeTab (registry s)) as [tab|];
    [|split; [intros _; split; [reflexivity | exact Hquiet] | discriminate]].
  destruct (match filePath tab with
            | Some p => if String.eqb p "" then None else Some p
            | None => None
            end) as [p|].
  - destruct (writeTextFile h p _) eqn:W; cbn [fst snd app]; split;
      try discriminate.
    + intros _. exists htmlContent, p, []. repeat split; try assumption.
      now left.
    + intros _. split; [reflexivity|]. intros files [H|[]]. discriminate.
  - destruct (chosen (save h)) as [p|];
      [|split; [intros _; split; [reflexivity | exact Hdialog] | discriminate]].
    destruct (writeTextFile h p _) eqn:W; cbn [fst snd app]; split;
      try discriminate.
    + intros _. exists htmlContent, p, [SaveDialog]. repeat split; try assumption.
      now right.
    + intros _. split; [reflexivity|]. intros files [H|[H|[]]]; discriminate.
Qed.

End SaveFacts.

Section OpenFacts.

Import App Recent Convert Files.

Variable h : Host.

(** X15.  When the guard answers [false], opening a file or a recent file
    changes nothing and calls nothing but the question: no dialog is
    shown and no file is read. *)
Theorem open_declined_aborts (e path : string) (s : Session) :
  fst (checkUnsavedChanges (confirm h) None (registry s)) = false ->
  let asked := map Asked (snd (checkUnsavedChanges (confirm h) None (registry s))) in
  handleOpenFile h (Some e) s = (s, asked) /\
  handleOpenRecentFile h (Some e) path s = (s, asked).
Proof.
  intros Hguard asked. unfold handleOpenFile, handleOpenRecentFile.
  subst asked.
  destruct (checkUnsavedChanges (confirm h) None (registry s)) as [proceed shown].
  cbn [fst snd] in *. subst proceed. split; reflexivity.
Qed.

(** X16.  When the guard answers [true] and the file is read, the active
    tab takes the converted text as content, the path, the file's name as
    title, and is not modified; the path is first in the recent files when
    the store takes the list. *)
Theorem open_loads_active_tab (e path text : string) (s : Session) (tab : Tab) :
  findTab (activeTabId (registry s)) (tabs (registry s)) = Some tab ->
  fst (checkUnsavedChanges (confirm h) None (registry s)) = true ->
  readTextFile h path = Some text ->
  path <> "" ->
  (open h = Some (Some path) ->
     fst (handleOpenFile h (Some e) s) = loadActive h path text s) /\
  fst (handleOpenRecentFile h (Some e) path s) = loadActive h path text s /\
  findTab (activeTabId (registry (loadActive h path text s)))
          (tabs (registry (loadActive h path text s)))
  = Some {| id := id tab; title := fileNameOf path; filePath := Some path;
            content := markdownToHtml text; isModified := false |} /\
  ((forall files, setItem h files = true) ->
   hd_error (recentFiles (loadActive h path text s)) = Some path).
Proof.
  intros Hfind Hguard Hread Hpath.
  apply String.eqb_neq in Hpath.
  split; [|split; [|split]].
  - intros Hpick. unfold handleOpenFile, chosen.
    destruct (checkUnsavedChanges (confirm h) None (registry s)) as [proceed shown].
    cbn [fst] in Hguard. subst proceed. cbn [negb].
    now rewrite Hpick, Hpath, Hread.
  - unfold handleOpenRecentFile.
    destruct (checkUnsavedChanges (confirm h) None (registry s)) as [proceed shown].
    cbn [fst] in Hguard. subst proceed. cbn [negb].
    now rewrite Hread.
  - unfold loadActive. cbn [registry].
    change (activeTabId (updateTabContent _ _ _ _)) with (activeTabId (registry s)).
    rewrite findTab_updateTabContent, findTab_updateTabFile, Hfind.
    cbn [option_map id].
    destruct (findTab_id _ _ _ Hfind) as [Hid _].
    apply String.eqb_eq in Hid. rewrite Hid. cbn [id]. now rewrite Hid.
  - intros Hstore. unfold loadActive, addToRecentFiles, saveRecentFiles.
    cbn [recentFiles]. rewrite Hstore. reflexivity.
Qed.

(** X17.  When the guard answers [true] and a recent file cannot be read,
    the tabs are as before, and the path is in the recent files no more
    when the store takes the list. *)
Theorem open_recent_unreadable (e path : string) (s : Session) :
  fst (checkUnsavedChanges (confirm h) None (registry s)) = true ->
  readTextFile h path = None ->
  registry (fst (handleOpenRecentFile h (Some e) path s)) = registry s /\
  ((forall files, setItem h files = true) ->
   ~ In path (recentFiles (fst (handleOpenRecentFile h (Some e) path s))) /\
   (forall other, other <> path ->
      (In other (recentFiles (fst (handleOpenRecentFile h (Some e) path s)))
       <-> In other (recentFiles s)))).
Proof.
  intros Hguard Hread. unfold handleOpenRecentFile.
  destruct (checkUnsavedChanges (confirm h) None (registry s)) as [proceed shown].
  cbn [fst] in Hguard. subst proceed. cbn [negb]. rewrite Hread.
  cbn [fst registry recentFiles]. split; [reflexivity|].
  intros Hstore. unfold removeFromRecentFiles, saveRecentFiles.
  rewrite Hstore. split.
  - rewrite without_In. tauto.
  - intros other Hother. rewrite without_In. tauto.
Qed.

End OpenFacts.

Section FileHandlerExamples.

Import App Recent Convert Files Cases.

Lemma handleSaveFile_binds_witness :
  handleSaveFile desk (Some "<p>abc</p>") withOpened
  = (true, bindActive desk "C:\docs\notes.md" withOpened,
     [WriteFile "C:\docs\notes.md" (htmlToMarkdown "<p>abc</p>");
      SetItem ["C:\docs\notes.md"; "C:\docs\gone.md"]]) /\
  handleSaveFile desk (Some "<p>abc</p>") atStart
  = (true, bindActive desk "C:\docs\new.md" atStart,
     [SaveDialog; WriteFile "C:\docs\new.md" (htmlToMarkdown "<p>abc</p>");
      SetItem ["C:\docs\new.md"]]).
Proof.
  split.
  - etransitivity.
    + apply (proj1 (handleSaveFile_binds desk "<p>abc</p>" "C:\docs\notes.md"
                      withOpened Scenario.openedTab eq_refl eq_refl
                      ltac:(discriminate))).
      reflexivity.
    + reflexivity.
  - etransitivity.
    + apply (proj1 (proj2 (handleSaveFile_binds desk "<p>abc</p>" "C:\docs\new.md"
                             atStart (untitled "tab-1") eq_refl eq_refl
                             ltac:(discriminate)))); reflexivity.
    + reflexivity.
Defined.

Lemma handleSaveFile_result_witness :
  (snd (fst (handleSaveFile deskCancelling (Some "<p>abc</p>") atStart)) = atStart /\
   forall files,
     ~ In (SetItem files)
          (snd (handleSaveFile deskCancelling (Some "<p>abc</p>") atStart))) /\
  exists htmlContent path before,
    Some "<p>abc</p>" = Some htmlContent /\
    snd (handleSaveFile desk (Some "<p>abc</p>") atStart)
    = (before ++ [WriteFile path (htmlToMarkdown htmlContent);
                  SetItem (listAfterAdd path (recentFiles atStart))])%list /\
    (before = [] \/ before = [SaveDialog]) /\
    writeTextFile desk path (htmlToMarkdown htmlContent) = true /\
    snd (fst (handleSaveFile desk (Some "<p>abc</p>") atStart))
    = bindActive desk path atStart.
Proof.
  split.
  - apply (proj1 (handleSaveFile_result deskCancelling (Some "<p>abc</p>") atStart)).
    reflexivity.
  - apply (proj2 (handleSaveFile_result desk (Some "<p>abc</p>") atStart)).
    reflexivity.
Defined.

Lemma open_declined_aborts_witness :
  handleOpenFile desk (Some "<p>draft</p>") withEdited
  = (withEdited, [Asked "Discard unsaved changes to Untitled?"]) /\
  handleOpenRecentFile desk (Some "<p>draft</p>") "C:\docs\notes.md" withEdited
  = (withEdited, [Asked "Discard unsaved changes to Untitled?"]).
Proof.
  apply (open_declined_aborts desk "<p>draft</p>" "C:\docs\notes.md" withEdited).
  reflexivity.
Defined.

Lemma open_loads_active_tab_witness :
  fst (handleOpenFile deskDiscarding (Some "<p>draft</p>") withEdited)
  = loadActive deskDiscarding "C:\docs\notes.md"
      ("one" ++ String Text.LF "two") withEdited /\
  findTab "tab-2"
    (tabs (registry (loadActive deskDiscarding "C:\docs\notes.md"
                       ("one" ++ String Text.LF "two") withEdited)))
  = Some {| id := "tab-2"; title := "notes.md";
            filePath := Some "C:\docs\notes.md";
            content := "one<br>two"; isModified := false |}.
Proof.
  pose proof (open_loads_active_tab deskDiscarding "<p>draft</p>"
                "C:\docs\notes.md" ("one" ++ String Text.LF "two") withEdited
                Scenario.editedTab eq_refl eq_refl eq_refl ltac:(discriminate))
    as [Hopen [_ [Htab _]]].
  split.
  - apply Hopen. reflexivity.
  - etransitivity; [exact Htab | reflexivity].
Defined.

Lemma open_recent_unreadable_witness :
  registry (fst (handleOpenRecentFile desk (Some "<p>abc</p>")
                   "C:\docs\gone.md" withOpened))
  = registry withOpened /\
  ~ In "C:\docs\gone.md"
      (recentFiles (fst (handleOpenRecentFile desk (Some "<p>abc</p>")
                           "C:\docs\gone.md" withOpened))).
Proof.
  destruct (open_recent_unreadable desk "<p>abc</p>" "C:\docs\gone.md"
              withOpened eq_refl eq_refl) as [Hsame Hgone].
  split; [exact Hsame|].
  apply Hgone. intros files. reflexivity.
Defined.

End FileHandlerExamples.

(** * More properties of the registry *)

Section IdFacts.

Import App.

Lemma findTab_nth (ts : list Tab) (i : nat) (tab : Tab) :
  NoDup (map id ts) -> nth_error ts i = Some tab ->
  findTab (id tab) ts = Some tab.
Proof.
  unfold findTab. revert i. induction ts as [|t ts IH]; intros i Hnd Hnth.
  - destruct i; discriminate.
  - cbn [map] in Hnd. inversion Hnd as [|x l Hnotin Hnd']; subst.
    destruct i as [|i]; cbn [nth_error] in Hnth.
    + injection Hnth as ->. cbn [find]. now rewrite String.eqb_refl.
    + cbn [find]. destruct (String.eqb_spec (id t) (id tab)) as [E|_].
      * exfalso. apply Hnotin. rewrite E. apply in_map.
        now apply nth_error_In in Hnth.
      * now apply (IH i).
Qed.

Lemma findIndexFrom_nth (ts : list Tab) (base : Z) (i : nat) (tab : Tab) :
  NoDup (map id ts) -> nth_error ts i = Some tab ->
  findIndexFrom base (id tab) ts = (base + Z.of_nat i)%Z.
Proof.
  revert base i. induction ts as [|t ts IH]; intros base i Hnd Hnth.
  - destruct i; discriminate.
  - cbn [map] in Hnd. inversion Hnd as [|x l Hnotin Hnd']; subst.
    destruct i as [|i]; cbn [nth_error] in Hnth.
    + injection Hnth as ->. cbn [findIndexFrom]. rewrite String.eqb_refl. lia.
    + cbn [findIndexFrom]. destruct (String.eqb_spec (id t) (id tab)) as [E|_].
      * exfalso. apply Hnotin. rewrite E. apply in_map.
        now apply nth_error_In in Hnth.
      * rewrite (IH (base + 1)%Z i) by assumption. lia.
Qed.

Lemma findIndexFrom_absent (ts : list Tab) (base : Z) (tabId : string) :
  registered tabId ts = false -> findIndexFrom base tabId ts = (-1)%Z.
Proof.
  unfold registered. revert base. induction ts as [|t ts IH]; intros base H.
  - reflexivity.
  - cbn [existsb] in H. apply orb_false_iff in H. destruct H as [Ht Hts].
    cbn [findIndexFrom]. rewrite Ht. now apply IH.
Qed.

Lemma findIndexFrom_present (ts : list Tab) (base : Z) (tabId : string) :
  registered tabId ts = true ->
  exists i tab, nth_error ts i = Some tab /\ id tab = tabId /\
                findIndexFrom base tabId ts = (base + Z.of_nat i)%Z.
Proof.
  unfold registered. revert base. induction ts as [|t ts IH]; intros base H.
  - discriminate.
  - cbn [findIndexFrom]. destruct (String.eqb_spec (id t) tabId) as [E|E].
    + exists 0%nat, t. repeat split; [assumption | lia].
    + cbn [existsb] in H. apply String.eqb_neq in E. rewrite E in H.
      destruct (IH (base + 1)%Z H) as [i [tab [Hnth [Hid Hidx]]]].
      exists (S i), tab. repeat split; [assumption | assumption | lia].
Qed.

Lemma registered_nth (ts : list Tab) (tabId : string) :
  registered tabId ts = true ->
  exists i tab, nth_error ts i = Some tab /\ id tab = tabId.
Proof.
  intros H. destruct (findIndexFrom_present ts 0 tabId H) as [i [tab [H1 [H2 _]]]].
  now exists i, tab.
Qed.

Lemma tabAt_nat (ts : list Tab) (i : nat) :
  tabAt (Z.of_nat i) ts = nth_error ts i.
Proof.
  unfold tabAt. destruct (Z.of_nat i <? 0)%Z eqn:E.
  - apply Z.ltb_lt in E. lia.
  - now rewrite Nat2Z.id.
Qed.

End IdFacts.

Section MoreCycleFacts.

Import App Keys.

Lemma nth_error_some_lt {A : Type} (l : list A) (i : nat) (a : A) :
  nth_error l i = Some a -> (i < List.length l)%nat.
Proof.
  intros H. apply nth_error_Some. congruence.
Qed.

Lemma nth_error_lt_some {A : Type} (l : list A) (i : nat) :
  (i < List.length l)%nat -> exists a, nth_error l i = Some a.
Proof.
  intros H. destruct (nth_error l i) as [a|] eqn:E; [now exists a|].
  apply nth_error_None in E. lia.
Qed.

(** Where Ctrl+Tab goes from the tab at place [i]. *)
Lemma cycleNext_at (st : State) (i : nat) (tab : Tab) :
  NoDup (map id (tabs st)) -> nth_error (tabs st) i = Some tab ->
  activeTabId st = id tab ->
  exists tab',
    nth_error (tabs st) ((i + 1) mod List.length (tabs st)) = Some tab' /\
    cycleNext st = Some (selectTab (id tab') st).
Proof.
  intros Hnd Hnth Hact.
  pose proof (nth_error_some_lt _ _ _ Hnth) as Hlt.
  assert (Hn : (List.length (tabs st) <> 0)%nat) by lia.
  destruct (nth_error_lt_some (tabs st) ((i + 1) mod List.length (tabs st)))
    as [tab' Htab'].
  { now apply Nat.mod_upper_bound. }
  exists tab'. split; [exact Htab'|].
  unfold cycleNext, findIndex. rewrite Hact.
  rewrite (findIndexFrom_nth _ 0 i tab Hnd Hnth).
  rewrite Z.rem_mod_nonneg by lia.
  replace (0 + Z.of_nat i + 1)%Z with (Z.of_nat (i + 1)) by lia.
  rewrite <- Nat2Z.inj_mod, tabAt_nat, Htab'. reflexivity.
Qed.

(** Where Ctrl+Shift+Tab goes from the tab at place [i]. *)
Lemma cyclePrevious_at (st : State) (i : nat) (tab : Tab) :
  NoDup (map id (tabs st)) -> nth_error (tabs st) i = Some tab ->
  activeTabId st = id tab ->
  exists tab',
    nth_error (tabs st)
      (if (i =? 0)%nat then List.length (tabs st) - 1 else i - 1) = Some tab' /\
    cyclePrevious st = Some (selectTab (id tab') st).
Proof.
  intros Hnd Hnth Hact.
  pose proof (nth_error_some_lt _ _ _ Hnth) as Hlt.
  destruct (nth_error_lt_some (tabs st)
              (if (i =? 0)%nat then List.length (tabs st) - 1 else i - 1))
    as [tab' Htab'].
  { destruct (i =? 0)%nat; lia. }
  exists tab'. split; [exact Htab'|].
  unfold cyclePrevious, findIndex. rewrite Hact.
  rewrite (findIndexFrom_nth _ 0 i tab Hnd Hnth).
  destruct i as [|i].
  - cbn [Nat.eqb] in Htab'. cbn.
    replace (Z.of_nat (List.length (tabs st)) - 1)%Z
      with (Z.of_nat (List.length (tabs st) - 1)) by lia.
    now rewrite tabAt_nat, Htab'.
  - cbn [Nat.eqb] in Htab'.
    destruct (0 + Z.of_nat (S i) =? 0)%Z eqn:E; [apply Z.eqb_eq in E; lia|].
    replace (0 + Z.of_nat (S i) - 1)%Z with (Z.of_nat (S i - 1)) by lia.
    now rewrite tabAt_nat, Htab'.
Qed.

Lemma selectTab_back (st : State) (other : string) :
  selectTab (activeTabId st) (selectTab other st) = st.
Proof.
  destruct st. reflexivity.
Qed.

(** X18.  With distinct ids and [activeTabId] naming a tab, Ctrl+Tab
    followed by Ctrl+Shift+Tab, and Ctrl+Shift+Tab followed by Ctrl+Tab,
    lead back to the state they started from. *)
Theorem cycle_there_and_back (st : State) :
  NoDup (map id (tabs st)) ->
  registered (activeTabId st) (tabs st) = true ->
  (exists st1, cycleNext st = Some st1 /\ cyclePrevious st1 = Some st) /\
  (exists st1, cyclePrevious st = Some st1 /\ cycleNext st1 = Some st).
Proof.
  intros Hnd Hreg.
  destruct (registered_nth _ _ Hreg) as [i [tab [Hnth Hid]]].
  pose proof (nth_error_some_lt _ _ _ Hnth) as Hlt.
  symmetry in Hid. split.
  - destruct (cycleNext_at st i tab Hnd Hnth Hid) as [tab1 [Hnth1 Hnext]].
    exists (selectTab (id tab1) st). split; [exact Hnext|].
    destruct (cyclePrevious_at (selectTab (id tab1) st)
                ((i + 1) mod List.length (tabs st)) tab1 Hnd Hnth1 eq_refl)
      as [tab2 [Hnth2 Hprev]].
    rewrite Hprev. cbn [tabs selectTab] in Hnth2.
    assert (Hback : (if ((i + 1) mod List.length (tabs st) =? 0)%nat
                     then List.length (tabs st) - 1
                     else (i + 1) mod List.length (tabs st) - 1) = i).
    { destruct (Nat.eq_dec (i + 1) (List.length (tabs st))) as [E|E].
      - rewrite E, Nat.Div0.mod_same. cbn [Nat.eqb]. lia.
      - rewrite Nat.mod_small by lia.
        destruct (i + 1 =? 0)%nat eqn:F; [apply Nat.eqb_eq in F; lia | lia]. }
    rewrite Hback, Hnth in Hnth2. injection Hnth2 as <-.
    rewrite <- Hid. f_equal. apply selectTab_back.
  - destruct (cyclePrevious_at st i tab Hnd Hnth Hid) as [tab1 [Hnth1 Hprev]].
    exists (selectTab (id tab1) st). split; [exact Hprev|].
    destruct (cycleNext_at (selectTab (id tab1) st)
                (if (i =? 0)%nat then List.length (tabs st) - 1 else i - 1)
                tab1 Hnd Hnth1 eq_refl)
      as [tab2 [Hnth2 Hnext]].
    rewrite Hnext. cbn [tabs selectTab] in Hnth2.
    assert (Hback : ((if (i =? 0)%nat then List.length (tabs st) - 1 else i - 1) + 1)
                      mod List.length (tabs st) = i).
    { destruct i as [|i]; cbn [Nat.eqb].
      - replace (List.length (tabs st) - 1 + 1)%nat
          with (List.length (tabs st)) by lia.
        apply Nat.Div0.mod_same.
      - rewrite Nat.mod_small by lia. lia. }
    rewrite Hback, Hnth in Hnth2. injection Hnth2 as <-.
    rewrite <- Hid. f_equal. apply selectTab_back.
Qed.

(** X19.  With distinct ids, [k] presses of Ctrl+Tab from the tab at place
    [i] activate the tab at place [(i + k) mod n], [n] being the number
    of tabs; [n] presses lead back to the tab they started from. *)
Theorem pressNext_advances (k i : nat) (st : State) (tab : Tab) :
  NoDup (map id (tabs st)) -> nth_error (tabs st) i = Some tab ->
  activeTabId st = id tab ->
  (exists tab',
     nth_error (tabs st) ((i + k) mod List.length (tabs st)) = Some tab' /\
     pressNext k st = Some (selectTab (id tab') st)) /\
  pressNext (List.length (tabs st)) st = Some st.
Proof.
  intros Hnd Hnth Hact.
  assert (Hgen : forall k i st tab,
            NoDup (map id (tabs st)) -> nth_error (tabs st) i = Some tab ->
            activeTabId st = id tab ->
            exists tab',
              nth_error (tabs st) ((i + k) mod List.length (tabs st)) = Some tab' /\
              pressNext k st = Some (selectTab (id tab') st)).
  { clear. intros k. induction k as [|k IH]; intros i st tab Hnd Hnth Hact.
    - exists tab. pose proof (nth_error_some_lt _ _ _ Hnth) as Hlt.
      rewrite Nat.add_0_r, Nat.mod_small by assumption.
      split; [exact Hnth|]. cbn [pressNext]. f_equal.
      rewrite <- Hact. destruct st; reflexivity.
    - destruct (cycleNext_at st i tab Hnd Hnth Hact) as [tab1 [Hnth1 Hnext]].
      cbn [pressNext]. rewrite Hnext.
      destruct (IH ((i + 1) mod List.length (tabs st)) (selectTab (id tab1) st)
                  tab1 Hnd Hnth1 eq_refl) as [tab2 [Hnth2 Hpress]].
      cbn [tabs selectTab] in Hnth2.
      exists tab2. split.
      + rewrite <- Hnth2. f_equal.
        rewrite Nat.Div0.add_mod_idemp_l. f_equal. lia.
      + rewrite Hpress. reflexivity. }
  split; [now apply (Hgen k i st tab)|].
  destruct (Hgen (List.length (tabs st)) i st tab Hnd Hnth Hact)
    as [tab' [Hnth' Hpress]].
  pose proof (nth_error_some_lt _ _ _ Hnth) as Hlt.
  replace ((i + List.length (tabs st)) mod List.length (tabs st)) with i in Hnth'.
  - rewrite Hnth in Hnth'. injection Hnth' as <-.
    rewrite Hpress, <- Hact. f_equal. destruct st; reflexivity.
  - rewrite <- Nat.Div0.add_mod_idemp_r, Nat.Div0.mod_same, Nat.add_0_r.
    symmetry. now apply Nat.mod_small.
Qed.

(** X20.  Ctrl+Tab raises only with no tab at all; with an [activeTabId]
    that names no tab it activates the first tab.  Ctrl+Shift+Tab raises
    exactly when there is no tab or [activeTabId] names none. *)
Theorem cycle_raises (st : State) :
  (cycleNext st = None <-> tabs st = []) /\
  (cyclePrevious st = None <->
     tabs st = [] \/ registered (activeTabId st) (tabs st) = false) /\
  (forall first rest, tabs st = first :: rest ->
     registered (activeTabId st) (tabs st) = false ->
     cycleNext st = Some (selectTab (id first) st)).
Proof.
  assert (Hdangling : forall first rest, tabs st = first :: rest ->
            registered (activeTabId st) (tabs st) = false ->
            cycleNext st = Some (selectTab (id first) st)
            /\ cyclePrevious st = None).
  { intros first rest Htabs Hreg. unfold cycleNext, cyclePrevious, findIndex.
    rewrite (findIndexFrom_absent _ 0 _ Hreg). rewrite Htabs.
    split.
    - cbn [List.length]. rewrite Z.rem_0_l by lia. reflexivity.
    - reflexivity. }
  assert (Hpresent : registered (activeTabId st) (tabs st) = true ->
            cycleNext st <> None /\ cyclePrevious st <> None).
  { intros Hreg.
    destruct (findIndexFrom_present (tabs st) 0 _ Hreg) as [i [tab [Hnth [_ Hidx]]]].
    pose proof (nth_error_some_lt _ _ _ Hnth) as Hlt.
    unfold cycleNext, cyclePrevious, findIndex. rewrite Hidx. split.
    - rewrite Z.rem_mod_nonneg by lia.
      replace (0 + Z.of_nat i + 1)%Z with (Z.of_nat (i + 1)) by lia.
      rewrite <- Nat2Z.inj_mod, tabAt_nat.
      destruct (nth_error_lt_some (tabs st) ((i + 1) mod List.length (tabs st)))
        as [t Ht]; [apply Nat.mod_upper_bound; lia|].
      rewrite Ht. discriminate.
    - destruct (0 + Z.of_nat i =? 0)%Z eqn:E.
      + replace (Z.of_nat (List.length (tabs st)) - 1)%Z
          with (Z.of_nat (List.length (tabs st) - 1)) by lia.
        rewrite tabAt_nat.
        destruct (nth_error_lt_some (tabs st) (List.length (tabs st) - 1))
          as [t Ht]; [lia|]. rewrite Ht. discriminate.
      + apply Z.eqb_neq in E.
        replace (0 + Z.of_nat i - 1)%Z with (Z.of_nat (i - 1)) by lia.
        rewrite tabAt_nat.
        destruct (nth_error_lt_some (tabs st) (i - 1)) as [t Ht]; [lia|].
        rewrite Ht. discriminate. }
  assert (Hempty : tabs st = [] -> cycleNext st = None /\ cyclePrevious st = None).
  { intros Hnil. unfold cycleNext, cyclePrevious, tabAt. rewrite Hnil.
    split.
    - destruct (_ <? 0)%Z; [reflexivity|]. now destruct (Z.to_nat _).
    - destruct (_ <? 0)%Z; [reflexivity|]. now destruct (Z.to_nat _). }
  assert (Hcases : tabs st = [] \/ exists first rest, tabs st = first :: rest).
  { destruct (tabs st) as [|first rest]; [now left | right; eauto]. }
  assert (Hregcases : registered (activeTabId st) (tabs st) = true
                      \/ registered (activeTabId st) (tabs st) = false).
  { destruct (registered (activeTabId st) (tabs st)); [now left | now right]. }
  split; [|split].
  - split; [|apply Hempty].
    intros Hnone. destruct Hcases as [Hnil|[first [rest Htabs]]]; [exact Hnil|].
    exfalso. destruct Hregcases as [Hreg|Hreg].
    + now apply (proj1 (Hpresent Hreg)).
    + destruct (Hdangling first rest Htabs Hreg) as [H _]. congruence.
  - split.
    + intros Hnone. destruct Hcases as [Hnil|[first [rest Htabs]]]; [now left|].
      right. destruct Hregcases as [Hreg|Hreg]; [|exact Hreg].
      exfalso. now apply (proj2 (Hpresent Hreg)).
    + intros [Hnil|Hreg]; [now apply Hempty|].
      destruct Hcases as [Hnil|[first [rest Htabs]]].
      * now apply Hempty.
      * now destruct (Hdangling first rest Htabs Hreg).
  - intros first rest Htabs Hreg. now destruct (Hdangling first rest Htabs Hreg).
Qed.

End MoreCycleFacts.

Section CycleExamples.

Import App Keys Scenario.

Lemma threeTabs_distinct (active : string) :
  NoDup (map id (tabs (threeTabs active))).
Proof.
  cbn. constructor; [|constructor; [|constructor; [|constructor]]].
  - intros [H|[H|[]]]; discriminate.
  - intros [H|[]]; discriminate.
  - intros [].
Defined.

Lemma cycle_there_and_back_witness :
  exists st1, cycleNext (threeTabs "C") = Some st1
              /\ cyclePrevious st1 = Some (threeTabs "C").
Proof.
  apply (cycle_there_and_back (threeTabs "C")).
  - apply threeTabs_distinct.
  - reflexivity.
Defined.

Lemma pressNext_advances_witness :
  pressNext 3 (threeTabs "B") = Some (threeTabs "B").
Proof.
  apply (proj2 (pressNext_advances 0 1 (threeTabs "B") (untitled "B")
                  (threeTabs_distinct "B") eq_refl eq_refl)).
Defined.

Lemma cycle_raises_witness :
  cycleNext afterClosingSoleTab
  = Some (selectTab "tab-1700000000000" afterClosingSoleTab) /\
  cyclePrevious afterClosingSoleTab = None.
Proof.
  destruct (cycle_raises afterClosingSoleTab) as [_ [Hprev Hfirst]].
  split.
  - apply (Hfirst (untitled "tab-1700000000000") []); reflexivity.
  - apply Hprev. right. reflexivity.
Defined.

End CycleExamples.

Section MoreCloseFacts.

Import App.

Lemma remaining_ids (tabId : string) (st : State) :
  map id (remaining tabId st)
  = filter (fun i => negb (String.eqb i tabId)) (map id (tabs st)).
Proof.
  unfold remaining. induction (tabs st) as [|t ts IH]; [reflexivity|].
  cbn [filter map]. destruct (String.eqb (id t) tabId); cbn [negb map].
  - exact IH.
  - now rewrite IH.
Qed.

Lemma remaining_absent (tabId : string) (st : State) :
  registered tabId (tabs st) = false -> remaining tabId st = tabs st.
Proof.
  unfold registered, remaining. induction (tabs st) as [|t ts IH]; [reflexivity|].
  cbn [existsb filter]. intros H. apply orb_false_iff in H. destruct H as [Ht Hts].
  rewrite Ht. cbn [negb]. now rewrite IH.
Qed.

Lemma remaining_unregistered (tabId : string) (st : State) :
  registered tabId (remaining tabId st) = false.
Proof.
  unfold registered, remaining. induction (tabs st) as [|t ts IH]; [reflexivity|].
  cbn [filter]. destruct (String.eqb (id t) tabId) eqn:E; cbn [negb existsb].
  - exact IH.
  - now rewrite E, IH.
Qed.

(** X21.  After [closeTab] no tab has the closed id, unless the clock
    prints that very id for the replacement tab; on a registry that
    satisfies the invariant, closing an id that no tab has changes
    nothing. *)
Theorem closeTab_closed_id_gone (now : Z) (tabId : string) (st : State) :
  (tabIdAt now <> tabId ->
     registered tabId (tabs (closeTab now tabId st)) = false) /\
  (invariant st -> registered tabId (tabs st) = false ->
     closeTab now tabId st = st).
Proof.
  split.
  - intros Hfresh. destruct (remaining tabId st) as [|t ts] eqn:E.
    + rewrite closeTab_tabs_fresh by assumption.
      unfold registered, tabs, existsb, untitled, id.
      rewrite orb_false_r. now apply String.eqb_neq.
    + rewrite closeTab_tabs_remaining by (rewrite E; discriminate).
      apply remaining_unregistered.
  - intros [Hne Hreg] Habsent.
    pose proof (remaining_absent tabId st Habsent) as Hrem.
    assert (Hdiff : String.eqb tabId (activeTabId st) = false).
    { apply String.eqb_neq. intros ->. congruence. }
    unfold closeTab. fold (remaining tabId st). rewrite Hrem, Hdiff.
    destruct st as [ts a]. cbn [tabs activeTabId andb] in *.
    destruct ts as [|t ts]; [contradiction | reflexivity].
Qed.

Lemma filter_NoDup_ids (tabId : string) (st : State) :
  NoDup (map id (tabs st)) -> NoDup (map id (remaining tabId st)).
Proof.
  intros H. rewrite remaining_ids. now apply NoDup_filter.
Qed.

(** X22.  Distinct ids stay distinct: under [closeTab] always, and under
    [createNewTab] when the id printed from the clock is not that of a
    tab. *)
Theorem ids_stay_distinct (now : Z) (tabId : string) (st : State) :
  NoDup (map id (tabs st)) ->
  NoDup (map id (tabs (closeTab now tabId st))) /\
  (registered (tabIdAt now) (tabs st) = false ->
     NoDup (map id (tabs (fst (createNewTab now st))))).
Proof.
  intros Hnd. split.
  - destruct (remaining tabId st) as [|t ts] eqn:E.
    + rewrite closeTab_tabs_fresh by assumption. cbn.
      constructor; [intros [] | constructor].
    + rewrite closeTab_tabs_remaining by (rewrite E; discriminate).
      now apply filter_NoDup_ids.
  - intros Hfresh. cbn [createNewTab fst tabs]. rewrite map_app. cbn [map].
    apply NoDup_app; [assumption | constructor; [intros [] | constructor] |].
    cbn [untitled id]. intros x Hx [<-|[]].
    apply in_map_iff in Hx. destruct Hx as [t [Hid Hin]].
    assert (Hreg : registered (tabIdAt now) (tabs st) = true)
      by (apply registered_iff; now exists t).
    congruence.
Qed.

(** X23.  A new tab that is closed at once leaves the tabs as they were
    and activates the last of them, whichever tab was active before. *)
Theorem createNewTab_then_closeTab (now later : Z) (st : State) (d : Tab) :
  tabs st <> [] -> registered (tabIdAt now) (tabs st) = false ->
  closeTab later (snd (createNewTab now st)) (fst (createNewTab now st))
  = {| tabs := tabs st; activeTabId := id (last (tabs st) d) |}.
Proof.
  intros Hne Hfresh.
  set (st1 := fst (createNewTab now st)).
  assert (Hrem : remaining (tabIdAt now) st1 = tabs st).
  { unfold remaining, st1. cbn [createNewTab fst tabs].
    rewrite filter_app. cbn [filter untitled id].
    rewrite String.eqb_refl. cbn [negb]. rewrite app_nil_r.
    exact (remaining_absent (tabIdAt now) st Hfresh). }
  assert (Hact : activeTabId st1 = tabIdAt now) by reflexivity.
  change (snd (createNewTab now st)) with (tabIdAt now).
  pose proof (closeTab_tabs_remaining later (tabIdAt now) st1) as Htabs.
  rewrite Hrem in Htabs. specialize (Htabs Hne).
  pose proof (closeTab_active_last later st1 d) as Hlast.
  rewrite Hact, Hrem in Hlast. specialize (Hlast Hne).
  destruct (closeTab later (tabIdAt now) st1) as [ts a].
  cbn [tabs activeTabId] in *. now subst.
Qed.

End MoreCloseFacts.

Section MoreCloseExamples.

Import App Scenario.

Lemma closeTab_closed_id_gone_witness :
  registered "tab-2" (tabs (closeTab closingTime "tab-2" editedInFront)) = false /\
  closeTab closingTime "tab-9" editedInFront = editedInFront.
Proof.
  destruct (closeTab_closed_id_gone closingTime "tab-2" editedInFront) as [Hgone _].
  destruct (closeTab_closed_id_gone closingTime "tab-9" editedInFront) as [_ Hsame].
  split.
  - apply Hgone. discriminate.
  - apply Hsame; [split; [discriminate | reflexivity] | reflexivity].
Defined.

Lemma two_tabs_distinct : NoDup (map id (tabs editedInFront)).
Proof.
  cbn. constructor; [intros [H|[]]; discriminate|].
  constructor; [intros [] | constructor].
Defined.

Lemma ids_stay_distinct_witness :
  NoDup (map id (tabs (closeTab closingTime "tab-1" editedInFront))) /\
  NoDup (map id (tabs (fst (createNewTab closingTime editedInFront)))).
Proof.
  destruct (ids_stay_distinct closingTime "tab-1" editedInFront two_tabs_distinct)
    as [Hclose Hnew].
  split; [exact Hclose | apply Hnew; reflexivity].
Defined.

Lemma createNewTab_then_closeTab_witness :
  closeTab closingTime (snd (createNewTab closingTime (threeTabs "A")))
    (fst (createNewTab closingTime (threeTabs "A")))
  = threeTabs "C".
Proof.
  apply (createNewTab_then_closeTab closingTime closingTime (threeTabs "A")
           (untitled "")).
  - discriminate.
  - reflexivity.
Defined.

End MoreCloseExamples.

(** * Properties of the tab bar *)

Section TabBarFacts.

Import App TabBar.

Lemma highlighted_count (a : string) (ts : list Tab) :
  List.length
    (filter highlighted
       (map (fun tab => {| label := title tab ++ (if isModified tab then "*" else "");
                           highlighted := String.eqb (id tab) a;
                           key := id tab |}) ts))
  = List.length (filter (fun i => String.eqb i a) (map id ts)).
Proof.
  induction ts as [|t ts IH]; [reflexivity|].
  cbn [map filter highlighted]. destruct (String.eqb (id t) a); cbn [List.length];
    now rewrite IH.
Qed.

Lemma count_absent (a : string) (ids : list string) :
  ~ In a ids -> filter (fun i => String.eqb i a) ids = [].
Proof.
  induction ids as [|i ids IH]; [reflexivity|]. intros H.
  cbn [filter]. destruct (String.eqb_spec i a) as [->|_].
  - exfalso. apply H. now left.
  - apply IH. intros Hin. apply H. now right.
Qed.

Lemma count_distinct (a : string) (ids : list string) :
  NoDup ids -> In a ids ->
  List.length (filter (fun i => String.eqb i a) ids) = 1%nat.
Proof.
  intros Hnd. induction Hnd as [|i ids Hnotin Hnd IH]; intros Hin; [contradiction|].
  cbn [filter]. destruct (String.eqb_spec i a) as [->|Hne].
  - now rewrite count_absent.
  - apply IH. destruct Hin as [E|Hin]; [contradiction | assumption].
Qed.

(** X24.  The tab bar draws one item per tab, in order.  With distinct ids
    and an [activeTabId] that names a tab exactly one item is highlighted;
    when [activeTabId] names no tab, none is. *)
Theorem tab_bar_highlights_one (st : State) :
  List.length (render st) = List.length (tabs st) /\
  map key (render st) = map id (tabs st) /\
  (NoDup (map id (tabs st)) -> registered (activeTabId st) (tabs st) = true ->
     List.length (filter highlighted (render st)) = 1%nat) /\
  (registered (activeTabId st) (tabs st) = false ->
     filter highlighted (render st) = []).
Proof.
  unfold render. split; [apply length_map|]. split.
  - rewrite map_map. reflexivity.
  - split.
    + intros Hnd Hreg. rewrite highlighted_count. apply count_distinct; [assumption|].
      apply registered_iff in Hreg. destruct Hreg as [t [Hin Hid]].
      rewrite <- Hid. now apply in_map.
    + intros Hreg. apply length_zero_iff_nil. rewrite highlighted_count.
      rewrite count_absent; [reflexivity|].
      intros Hin. apply in_map_iff in Hin. destruct Hin as [t [Hid Hin]].
      assert (registered (activeTabId st) (tabs st) = true)
        by (apply registered_iff; now exists t).
      congruence.
Qed.

(** X25.  A click on a drawn tab activates it and keeps the invariant;
    with distinct ids the tab the editor then shows is that tab. *)
Theorem click_activates (i : nat) (st : State) (tab : Tab) :
  nth_error (tabs st) i = Some tab ->
  activeTabId (click i st) = id tab /\
  tabs (click i st) = tabs st /\
  invariant (click i st) /\
  (NoDup (map id (tabs st)) -> activeTab (click i st) = Some tab).
Proof.
  intros Hnth.
  assert (Hclick : click i st = selectTab (id tab) st).
  { unfold click, render. rewrite nth_error_map, Hnth. reflexivity. }
  rewrite Hclick. split; [reflexivity|]. split; [reflexivity|]. split.
  - apply selectTab_invariant.
    + intros Hnil. rewrite Hnil in Hnth. destruct i; discriminate.
    + apply tab_In_registered. now apply nth_error_In in Hnth.
  - intros Hnd. apply activeTab_registered. cbn [selectTab activeTabId tabs].
    now apply (findTab_nth _ i).
Qed.

End TabBarFacts.

Section TabBarExamples.

Import App TabBar Scenario.

Lemma tab_bar_highlights_one_witness :
  List.length (filter highlighted (render editedInFront)) = 1%nat /\
  filter highlighted (render afterClosingSoleTab) = [].
Proof.
  destruct (tab_bar_highlights_one editedInFront) as [_ [_ [Hone _]]].
  destruct (tab_bar_highlights_one afterClosingSoleTab) as [_ [_ [_ Hnone]]].
  split.
  - apply Hone; [exact two_tabs_distinct | reflexivity].
  - apply Hnone. reflexivity.
Defined.

Lemma click_activates_witness :
  activeTabId (click 0 editedInFront) = "tab-1" /\
  activeTab (click 0 editedInFront) = Some openedTab.
Proof.
  destruct (click_activates 0 editedInFront openedTab eq_refl)
    as [Hid [_ [_ Hshown]]].
  split; [exact Hid | exact (Hshown two_tabs_distinct)].
Defined.

End TabBarExamples.

(** * More properties of the notifications *)

Section RepeatedUpdate.

Import App Scenario.

(** X26.  Two notifications in a row with the same content leave the tab
    unflagged, whatever the content is and whatever the tab held. *)
Theorem onUpdate_repeated_clears_flag (c : string) (st : State) (tab : Tab) :
  findTab (activeTabId st) (tabs st) = Some tab ->
  exists st1 st2,
    onUpdate c st = Some st1 /\ onUpdate c st1 = Some st2 /\
    findTab (activeTabId st2) (tabs st2)
    = Some {| id := id tab; title := title tab; filePath := filePath tab;
              content := c; isModified := false |}.
Proof.
  intros Hfind.
  destruct (findTab_id _ _ _ Hfind) as [Hid _]. apply String.eqb_eq in Hid.
  set (m := negb (String.eqb c emptyDocument) && negb (String.eqb c (content tab))).
  set (st1 := updateTabContent (activeTabId st) c m st).
  set (tab1 := {| id := id tab; title := title tab; filePath := filePath tab;
                  content := c; isModified := m |}).
  assert (Hfind1 : findTab (activeTabId st1) (tabs st1) = Some tab1).
  { change (activeTabId st1) with (activeTabId st). unfold st1.
    rewrite findTab_updateTabContent, Hfind. cbn [option_map]. now rewrite Hid. }
  exists st1, (updateTabContent (activeTabId st1) c false st1).
  split; [|split].
  - unfold onUpdate. now rewrite (activeTab_registered _ _ Hfind).
  - unfold onUpdate. rewrite (activeTab_registered _ _ Hfind1).
    cbn [content tab1]. rewrite String.eqb_refl.
    cbn [negb]. now rewrite andb_false_r.
  - change (activeTabId (updateTabContent (activeTabId st1) c false st1))
      with (activeTabId st1).
    rewrite findTab_updateTabContent, Hfind1. cbn [option_map id tab1].
    change (activeTabId st1) with (activeTabId st). now rewrite Hid.
Qed.

Lemma onUpdate_repeated_clears_flag_witness :
  exists st1 st2,
    onUpdate "<p>abcd</p>" openedDocument = Some st1 /\
    onUpdate "<p>abcd</p>" st1 = Some st2 /\
    findTab (activeTabId st2) (tabs st2)
    = Some {| id := "tab-1"; title := "notes.md";
              filePath := Some "C:\docs\notes.md";
              content := "<p>abcd</p>"; isModified := false |}.
Proof.
  apply (onUpdate_repeated_clears_flag "<p>abcd</p>" openedDocument openedTab).
  reflexivity.
Defined.

End RepeatedUpdate.

(** * More properties of the find/replace dialog *)

Section MoreFindFacts.

Import Regex FindReplace Literal Scenario.

Variable setContent : string -> string.

(** X27.  No handler of the dialog raises, whatever the query holds;
    [findNext] changes nothing but the two counters, and no handler
    changes the fields of the dialog. *)
Theorem dialog_handlers_never_raise (s : Session) :
  exists s1 s2 s3,
    findNext s = Some s1 /\ replaceNext setContent s = Some s2 /\
    replaceAll setContent s = Some s3 /\
    html s1 = html s /\
    (findText s1, replaceText s1, caseSensitive s1)
      = (findText s, replaceText s, caseSensitive s) /\
    (findText s2, replaceText s2, caseSensitive s2)
      = (findText s, replaceText s, caseSensitive s) /\
    (findText s3, replaceText s3, caseSensitive s3)
      = (findText s, replaceText s, caseSensitive s).
Proof.
  assert (Hfind : forall x, exists x1,
            findNext x = Some x1 /\ html x1 = html x /\
            (findText x1, replaceText x1, caseSensitive x1)
              = (findText x, replaceText x, caseSensitive x)).
  { intros x. unfold findNext.
    destruct (String.eqb (findText x) ""); [now exists x|].
    rewrite (proj1 (newRegExp_escapeRegex (findText x) (caseSensitive x))).
    destruct (stringMatch _ (html x)); eexists; (split; [reflexivity|]);
      split; reflexivity. }
  destruct (Hfind s) as [s1 [H1 [Hhtml Hfields]]].
  assert (Hnext : exists s2, replaceNext setContent s = Some s2 /\
            (findText s2, replaceText s2, caseSensitive s2)
              = (findText s, replaceText s, caseSensitive s)).
  { unfold replaceNext.
    destruct (String.eqb (findText s) ""); [now exists s|].
    rewrite (proj2 (newRegExp_escapeRegex (findText s) (caseSensitive s))).
    destruct (negb _); [|now exists s].
    destruct (Hfind (setHtml (setContent
                (stringReplace
                   {| source := literals (findText s); global := false;
                      ignoreCase := negb (caseSensitive s) |}
                   (html s) (replaceText s))) s)) as [s2 [H2 [_ Hf2]]].
    exists s2. split; [exact H2 | exact Hf2]. }
  destruct Hnext as [s2 [H2 Hf2]].
  assert (Hall : exists s3, replaceAll setContent s = Some s3 /\
            (findText s3, replaceText s3, caseSensitive s3)
              = (findText s, replaceText s, caseSensitive s)).
  { unfold replaceAll.
    destruct (String.eqb (findText s) ""); [now exists s|].
    rewrite (proj1 (newRegExp_escapeRegex (findText s) (caseSensitive s))).
    destruct (negb _); eexists; split; reflexivity. }
  destruct Hall as [s3 [H3 Hf3]].
  exists s1, s2, s3. repeat split; assumption.
Qed.

Lemma occursAt_length (ic : bool) (q s : string) :
  occursAt ic q s = true -> (String.length q <= String.length s)%nat.
Proof.
  revert s. induction q as [|a q IH]; intros s H; [cbn; lia|].
  destruct s as [|b s]; [discriminate|].
  cbn [occursAt] in H. apply andb_true_iff in H. destruct H as [_ H].
  apply IH in H. cbn [String.length]. lia.
Qed.

Lemma countFrom_bound (ic : bool) (q : string) (skip : nat) (s : string) :
  q <> EmptyString ->
  (countFrom ic q skip s * String.length q + Nat.min skip (String.length s)
   <= String.length s)%nat.
Proof.
  intros Hq. assert (Hlen : (1 <= String.length q)%nat)
    by (destruct q; [congruence | cbn; lia]).
  revert skip. induction s as [|c s IH]; intros skip.
  - cbn [countFrom String.length]. lia.
  - cbn [countFrom String.length]. destruct skip as [|k].
    + destruct (occursAt ic q (String c s)) eqn:E.
      * apply occursAt_length in E. cbn [String.length] in E.
        specialize (IH (Nat.pred (String.length q))). lia.
      * specialize (IH 0%nat). lia.
    + specialize (IH k). lia.
Qed.

(** X28.  The matches [findNext] counts do not overlap: the count times
    the length of the query is at most the length of the document. *)
Theorem findNext_matches_fit (s s1 : Session) :
  findText s <> EmptyString -> findNext s = Some s1 ->
  (totalMatches s1 * String.length (findText s) <= String.length (html s))%nat.
Proof.
  intros Hq Hrun. unfold findNext in Hrun.
  destruct (String.eqb_spec (findText s) "") as [E|_]; [contradiction|].
  rewrite (proj1 (newRegExp_escapeRegex (findText s) (caseSensitive s))) in Hrun.
  pose proof (stringMatch_count (negb (caseSensitive s)) (findText s) (html s) Hq) as H.
  pose proof (countFrom_bound (negb (caseSensitive s)) (findText s) 0 (html s) Hq)
    as Hbound.
  fold (countOccurrences (negb (caseSensitive s)) (findText s) (html s)) in Hbound.
  destruct (stringMatch _ (html s)) as [matches|].
  - destruct H as [Hlen _]. injection Hrun as <-. cbn [totalMatches setTotalMatches].
    rewrite Hlen. lia.
  - injection Hrun as <-. cbn. lia.
Qed.

Lemma no_occurrence_step (ic : bool) (q : string) (c : ascii) (s : string) :
  countFrom ic q 0 (String c s) = 0%nat ->
  occursAt ic q (String c s) = false /\ countFrom ic q 0 s = 0%nat.
Proof.
  cbn [countFrom]. destruct (occursAt ic q (String c s)); [discriminate | tauto].
Qed.

Lemma replaceScan_no_occurrence (ic g : bool) (q repl before : string)
    (live : bool) (s : string) :
  q <> EmptyString -> countFrom ic q 0 s = 0%nat ->
  replaceScan ic (literals q) g repl before 0 live s = s.
Proof.
  intros Hq. revert before. induction s as [|c s IH]; intros before H.
  - cbn [replaceScan]. rewrite matchAtoms_literals, occursAt_nonempty_end by assumption.
    now rewrite !andb_false_r.
  - apply no_occurrence_step in H. destruct H as [Hno Hrest].
    rewrite replaceScan_step, matchAtoms_literals, Hno, andb_false_r.
    now rewrite IH.
Qed.

(** X29.  When the query occurs nowhere in the document, [replaceNext]
    and [replaceAll] change nothing, whatever the replacement is: the
    editor is given no content and the counters stay. *)
Theorem replace_without_occurrence (s : Session) :
  findText s <> EmptyString ->
  countOccurrences (negb (caseSensitive s)) (findText s) (html s) = 0%nat ->
  replaceNext setContent s = Some s /\ replaceAll setContent s = Some s.
Proof.
  intros Hq Hnone. unfold replaceNext, replaceAll.
  destruct (String.eqb_spec (findText s) "") as [E|_]; [contradiction|].
  rewrite (proj1 (newRegExp_escapeRegex (findText s) (caseSensitive s))).
  rewrite (proj2 (newRegExp_escapeRegex (findText s) (caseSensitive s))).
  unfold stringReplace. cbn [source global ignoreCase].
  rewrite !replaceScan_no_occurrence by assumption.
  rewrite String.eqb_refl. split; reflexivity.
Qed.

End MoreFindFacts.

Section ReplaceLength.

Import Regex FindReplace Literal Scenario.

Lemma replaceFrom_length (ic : bool) (q r : string) (skip : nat) (s : string) :
  q <> EmptyString ->
  (String.length (replaceFrom ic q r true skip true s)
   + countFrom ic q skip s * String.length q
   + Nat.min skip (String.length s)
   = String.length s + countFrom ic q skip s * String.length r)%nat.
Proof.
  intros Hq. assert (Hlen : (1 <= String.length q)%nat)
    by (destruct q; [congruence | cbn; lia]).
  revert skip. induction s as [|c s IH]; intros skip.
  - cbn [replaceFrom countFrom String.length]. lia.
  - cbn [replaceFrom countFrom String.length]. destruct skip as [|k].
    + cbn [andb]. destruct (occursAt ic q (String c s)) eqn:E.
      * apply occursAt_length in E. cbn [String.length] in E.
        rewrite append_length.
        specialize (IH (Nat.pred (String.length q))). lia.
      * cbn [String.length]. specialize (IH 0%nat). lia.
    + specialize (IH k). lia.
Qed.

(** X30.  With an editor that holds the text it is given, a query that is
    not empty and a replacement without a dollar sign, [replaceAll]
    replaces as many occurrences as [findNext] counts: the document
    changes in length by that count times the difference in length of
    replacement and query. *)
Theorem replaceAll_changes_length (s s1 s' : Session) :
  findText s <> EmptyString -> hasDollar (replaceText s) = false ->
  findNext s = Some s1 -> replaceAll plainEditor s = Some s' ->
  (String.length (html s') + totalMatches s1 * String.length (findText s)
   = String.length (html s) + totalMatches s1 * String.length (replaceText s))%nat.
Proof.
  intros Hq Hr Hfind Hall.
  assert (Hcount : totalMatches s1
                   = countOccurrences (negb (caseSensitive s)) (findText s) (html s)).
  { unfold findNext in Hfind.
    destruct (String.eqb_spec (findText s) "") as [E|_]; [contradiction|].
    rewrite (proj1 (newRegExp_escapeRegex (findText s) (caseSensitive s))) in Hfind.
    pose proof (stringMatch_count (negb (caseSensitive s)) (findText s) (html s) Hq)
      as H.
    destruct (stringMatch _ (html s)) as [matches|].
    - destruct H as [Hlen _]. injection Hfind as <-. exact Hlen.
    - injection Hfind as <-. now rewrite H. }
  pose proof (replaceFrom_length (negb (caseSensitive s)) (findText s)
                (replaceText s) 0 (html s) Hq) as Hlen.
  fold (countOccurrences (negb (caseSensitive s)) (findText s) (html s)) in Hlen.
  rewrite <- Hcount in Hlen. cbn [Nat.min] in Hlen.
  unfold replaceAll in Hall.
  destruct (String.eqb_spec (findText s) "") as [E|_]; [contradiction|].
  rewrite (proj1 (newRegExp_escapeRegex (findText s) (caseSensitive s))) in Hall.
  rewrite stringReplace_literal in Hall by assumption.
  destruct (String.eqb_spec
              (replaceFrom (negb (caseSensitive s)) (findText s) (replaceText s)
                 true 0 true (html s)) (html s)) as [Esame|Ediff];
    cbn [negb] in Hall; injection Hall as <-.
  - rewrite Esame in Hlen. lia.
  - cbn [html setCurrentMatch setTotalMatches setHtml]. unfold plainEditor. lia.
Qed.

End ReplaceLength.

Section MoreFindExamples.

Import Regex FindReplace Literal Scenario.

Lemma findNext_matches_fit_witness :
  (totalMatches (setTotalMatches 2 catDog) * String.length (findText catDog)
   <= String.length (html catDog))%nat.
Proof.
  apply (findNext_matches_fit catDog (setTotalMatches 2 catDog)).
  - discriminate.
  - reflexivity.
Defined.

Lemma replace_without_occurrence_witness :
  replaceNext plainEditor (dialogOver "cat cat dog" "bird" "$&$&")
    = Some (dialogOver "cat cat dog" "bird" "$&$&") /\
  replaceAll plainEditor (dialogOver "cat cat dog" "bird" "$&$&")
    = Some (dialogOver "cat cat dog" "bird" "$&$&").
Proof.
  apply (replace_without_occurrence plainEditor
           (dialogOver "cat cat dog" "bird" "$&$&")).
  - discriminate.
  - reflexivity.
Defined.

Lemma replaceAll_changes_length_witness :
  (String.length "a bird and a bird" + 2 * String.length "cat"
   = String.length "a cat and a cat" + 2 * String.length "bird")%nat.
Proof.
  apply (replaceAll_changes_length
           (dialogOver "a cat and a cat" "cat" "bird")
           (setTotalMatches 2 (dialogOver "a cat and a cat" "cat" "bird"))
           (setCurrentMatch 0 (setTotalMatches 0
              (setHtml "a bird and a bird"
                 (dialogOver "a cat and a cat" "cat" "bird"))))).
  - discriminate.
  - reflexivity.
  - reflexivity.
  - reflexivity.
Defined.

End MoreFindExamples.
